(** * nft_helper: synthesis of nft directives and interpretation of rule dumps

    A shallow embedding of the core of [nft_helper.py]:
    - [validate_protocol_port] and [generate_nft_command] (intent to directives),
    - the per-directive loop of [execute_command] (apply with remediation),
    - [format_rule_expression] (rule-expression interpreter),
    - [search_rules_by_port] and [get_rule_summary] (query layer).

    Python values that reach these functions are JSON values (the result of
    [json.loads]) and strings typed by the operator.  Strings are modelled as
    sequences of bytes (UTF-8); the character classes of [str.strip],
    [str.split], [str.lower] and [int] are the ASCII ones.  JSON numbers are
    integers: nft's JSON dump carries no floating-point member.  An integer
    of the program comes out of [int()], called by the program or by
    [json.loads], which converts no more than 4300 digits; integers are
    therefore within the reach of [str()], which has the same limit. *)

From Stdlib Require Import String Ascii List ZArith NArith Lia Bool.
From Stdlib Require Import DecimalString DecimalPos DecimalN DecimalZ.
Import ListNotations.
Local Open Scope string_scope.

(** ** The fragment of the Python runtime the program relies on *)
Module Py.

(** Exceptions raised by the built-ins used below. *)
Inductive exn : Type :=
| ValueError | TypeError | AttributeError | IndexError | KeyError.

(** A computation either returns or raises. *)
Inductive res (A : Type) : Type :=
| Ok (a : A)
| Raise (e : exn).
Arguments Ok {A} a.
Arguments Raise {A} e.

Definition bind {A B : Type} (m : res A) (k : A -> res B) : res B :=
  match m with
  | Ok a => k a
  | Raise e => Raise e
  end.

(** [for x in l: st = body(st, x)], stopping at the first exception. *)
Fixpoint foldM {A S : Type} (body : S -> A -> res S) (l : list A) (st : S)
  : res S :=
  match l with
  | [] => Ok st
  | x :: rest => bind (body st x) (foldM body rest)
  end.

(** *** Strings *)

Definition dquote : ascii := ascii_of_nat 34.
Definition bslash : ascii := ascii_of_nat 92.

(** Whitespace as [str.strip()] and [str.split()] see it, on ASCII. *)
Definition is_space (c : ascii) : bool :=
  let n := nat_of_ascii c in
  (n =? 32)%nat || ((9 <=? n)%nat && (n <=? 13)%nat)
  || ((28 <=? n)%nat && (n <=? 31)%nat).

Definition is_digit (c : ascii) : bool :=
  let n := nat_of_ascii c in (48 <=? n)%nat && (n <=? 57)%nat.

Definition lower_char (c : ascii) : ascii :=
  let n := nat_of_ascii c in
  if (65 <=? n)%nat && (n <=? 90)%nat then ascii_of_nat (n + 32) else c.

(** [s.lower()] *)
Fixpoint lower (s : string) : string :=
  match s with
  | EmptyString => EmptyString
  | String c r => String (lower_char c) (lower r)
  end.

(** [needle in s] for two strings. *)
Fixpoint contains (needle s : string) : bool :=
  String.prefix needle s
  || match s with
     | EmptyString => false
     | String _ r => contains needle r
     end.

Fixpoint lstrip (s : string) : string :=
  match s with
  | EmptyString => EmptyString
  | String c r => if is_space c then lstrip r else s
  end.

Fixpoint rstrip (s : string) : string :=
  match s with
  | EmptyString => EmptyString
  | String c r =>
      match rstrip r with
      | EmptyString => if is_space c then EmptyString else String c EmptyString
      | r' => String c r'
      end
  end.

(** [s.strip()] *)
Definition strip (s : string) : string := rstrip (lstrip s).

(** [s.split(sep)] for a one-character separator: never empty. *)
Fixpoint split_on (sep : ascii) (s : string) : list string :=
  match s with
  | EmptyString => [EmptyString]
  | String c r =>
      if Ascii.eqb c sep then EmptyString :: split_on sep r
      else match split_on sep r with
           | h :: t => String c h :: t
           | [] => [String c EmptyString]
           end
  end.

(** [s.split()]: maximal runs of non-whitespace. *)
Fixpoint split_ws (s : string) : list string :=
  match s with
  | EmptyString => []
  | String c r =>
      if is_space c then split_ws r
      else match r with
           | EmptyString => [String c EmptyString]
           | String c' _ =>
               if is_space c' then String c EmptyString :: split_ws r
               else match split_ws r with
                    | h :: t => String c h :: t
                    | [] => [String c EmptyString]
                    end
           end
  end.

(** [sep.join(l)] *)
Definition join (sep : string) (l : list string) : string :=
  String.concat sep l.

(** Every character of [s] satisfies [p]. *)
Fixpoint all_chars (p : ascii -> bool) (s : string) : bool :=
  match s with
  | EmptyString => true
  | String c r => p c && all_chars p r
  end.

(** [list(s)]: the one-character strings of [s]. *)
Fixpoint chars (s : string) : list string :=
  match s with
  | EmptyString => []
  | String c r => String c EmptyString :: chars r
  end.

(** *** Integers *)

(** [str(z)] for an int. *)
Definition str_of_Z (z : Z) : string := NilZero.string_of_int (Z.to_int z).

(** [str(n)] for a non-negative int. *)
Definition str_of_N (n : N) : string := NilZero.string_of_uint (N.to_uint n).

(** The digits of an integer literal with its underscores removed; an
    underscore is legal only between two digits. *)
Fixpoint drop_underscores (after_digit : bool) (s : string) : option string :=
  match s with
  | EmptyString => if after_digit then Some EmptyString else None
  | String c r =>
      if is_digit c then option_map (String c) (drop_underscores true r)
      else if Ascii.eqb c "_" then
             if after_digit then drop_underscores false r else None
      else None
  end.

(** Whitespace as [int()] skips it around an ASCII literal: the space and
    the controls 9 to 13.  The separators 28 to 31, which [str.strip()]
    removes, are not skipped. *)
Definition is_int_space (c : ascii) : bool :=
  let n := nat_of_ascii c in
  (n =? 32)%nat || ((9 <=? n)%nat && (n <=? 13)%nat).

Fixpoint ltrim (p : ascii -> bool) (s : string) : string :=
  match s with
  | EmptyString => EmptyString
  | String c r => if p c then ltrim p r else s
  end.

Fixpoint rtrim (p : ascii -> bool) (s : string) : string :=
  match s with
  | EmptyString => EmptyString
  | String c r =>
      match rtrim p r with
      | EmptyString => if p c then EmptyString else String c EmptyString
      | r' => String c r'
      end
  end.

(** [sys.get_int_max_str_digits()]: the default limit on the number of
    digits [int()] converts. *)
Definition int_max_str_digits : nat := 4300.

(** The literal has more digits than [int()] converts. *)
Definition too_many_digits (digits : string) : bool :=
  (int_max_str_digits <? String.length digits)%nat.

Definition parse_unsigned (s : string) : option N :=
  match drop_underscores false s with
  | Some digits =>
      if too_many_digits digits then None
      else option_map N.of_uint (NilZero.uint_of_string digits)
  | None => None
  end.

(** [int(s)] for an ASCII string, base 10: surrounding whitespace, one
    optional sign, decimal digits; [ValueError] for anything else and for a
    literal of more than [int_max_str_digits] digits. *)
Definition int_of_str (s : string) : res Z :=
  let t := rtrim is_int_space (ltrim is_int_space s) in
  let signed :=
    match t with
    | String "+" r => option_map Z.of_N (parse_unsigned r)
    | String "-" r => option_map (fun n => (- Z.of_N n)%Z) (parse_unsigned r)
    | _ => option_map Z.of_N (parse_unsigned t)
    end in
  match signed with
  | Some z => Ok z
  | None => Raise ValueError
  end.

(** [s * n] *)
Fixpoint times (n : nat) (s : string) : string :=
  match n with
  | O => EmptyString
  | S m => s ++ times m s
  end.

(** [list(range(k, k + fuel))] *)
Fixpoint range_from (fuel : nat) (k : N) : list N :=
  match fuel with
  | O => []
  | S f => k :: range_from f (N.succ k)
  end.

(** *** [repr] of a string *)

Definition hex_digit (n : nat) : ascii :=
  if (n <? 10)%nat then ascii_of_nat (48 + n) else ascii_of_nat (87 + n).

Definition escape_char (quote c : ascii) : string :=
  let n := nat_of_ascii c in
  if Ascii.eqb c bslash then String bslash (String bslash EmptyString)
  else if Ascii.eqb c quote then String bslash (String quote EmptyString)
  else if (n =? 9)%nat then String bslash "t"
  else if (n =? 10)%nat then String bslash "n"
  else if (n =? 13)%nat then String bslash "r"
  else if (n <? 32)%nat || (n =? 127)%nat then
         String bslash
           (String "x" (String (hex_digit (n / 16))
                          (String (hex_digit (n mod 16)) EmptyString)))
  else String c EmptyString.

Fixpoint escape (quote : ascii) (s : string) : string :=
  match s with
  | EmptyString => EmptyString
  | String c r => escape_char quote c ++ escape quote r
  end.

(** [repr(s)]: single quotes unless the string holds one and no double
    quote. *)
Definition repr_str (s : string) : string :=
  let quote :=
    if contains "'" s && negb (contains (String dquote EmptyString) s)
    then dquote else "'"%char in
  String quote (escape quote s ++ String quote EmptyString).

End Py.

(** Sequencing of computations that may raise. *)
Notation "x <- m ;; k" := (Py.bind m (fun x => k))
  (at level 61, m at next level, right associativity).


(** ** JSON values, as [json.loads] builds them *)
Module Json.
Import Py.

(** A [dict] keeps its keys in insertion order; keys are unique. *)
#[warnings="-register-all"]
Inductive json : Type :=
| JNull
| JBool (b : bool)
| JInt (z : Z)
| JStr (s : string)
| JList (l : list json)
| JDict (d : list (string * json)).

Fixpoint assoc (k : string) (d : list (string * json)) : option json :=
  match d with
  | [] => None
  | (k', v) :: rest => if String.eqb k k' then Some v else assoc k rest
  end.

(** [bool(v)] *)
Definition truthy (v : json) : bool :=
  match v with
  | JNull => false
  | JBool b => b
  | JInt z => negb (z =? 0)%Z
  | JStr s => negb (String.eqb s EmptyString)
  | JList l => match l with [] => false | _ => true end
  | JDict d => match d with [] => false | _ => true end
  end.

(** [repr(v)] *)
Fixpoint repr (v : json) : string :=
  match v with
  | JNull => "None"
  | JBool true => "True"
  | JBool false => "False"
  | JInt z => str_of_Z z
  | JStr s => repr_str s
  | JList l => "[" ++ join ", " (map repr l) ++ "]"
  | JDict d =>
      "{" ++ join ", " (map (fun kv => let '(k, x) := kv in
                                       repr_str k ++ ": " ++ repr x) d) ++ "}"
  end.

(** [str(v)], which is also what an f-string field renders. *)
Definition str (v : json) : string :=
  match v with
  | JStr s => s
  | _ => repr v
  end.

(** [v == s] for a string [s]. *)
Definition eq_str (v : json) (s : string) : bool :=
  match v with
  | JStr t => String.eqb t s
  | _ => false
  end.

(** [isinstance(v, str)], [isinstance(v, dict)], [isinstance(v, list)] and
    [isinstance(v, int)]; a bool is an int. *)
Definition is_str (v : json) : bool :=
  match v with JStr _ => true | _ => false end.
Definition is_dict (v : json) : bool :=
  match v with JDict _ => true | _ => false end.
Definition is_list (v : json) : bool :=
  match v with JList _ => true | _ => false end.
Definition is_int (v : json) : bool :=
  match v with JInt _ | JBool _ => true | _ => false end.

(** The number an int or a bool stands for in a comparison. *)
Definition num (v : json) : option Z :=
  match v with
  | JInt z => Some z
  | JBool b => Some (if b then 1 else 0)%Z
  | _ => None
  end.

(** [int(v)] *)
Definition int (v : json) : res Z :=
  match v with
  | JInt z => Ok z
  | JBool b => Ok (if b then 1 else 0)%Z
  | JStr s => int_of_str s
  | JNull | JList _ | JDict _ => Raise TypeError
  end.

(** The value under [k], or [default]. *)
Definition lookup_or (kv : list (string * json)) (k : string) (default : json)
  : json :=
  match assoc k kv with
  | Some v => v
  | None => default
  end.

(** [d.get(k, default)] *)
Definition get (d : json) (k : string) (default : json) : res json :=
  match d with
  | JDict kv => Ok (lookup_or kv k default)
  | _ => Raise AttributeError
  end.

(** [d[k]] for a string key. *)
Definition getitem (d : json) (k : string) : res json :=
  match d with
  | JDict kv => match assoc k kv with Some v => Ok v | None => Raise KeyError end
  | _ => Raise TypeError
  end.

(** [k in c] for a string [k]. *)
Definition member (k : string) (c : json) : res bool :=
  match c with
  | JDict kv => Ok (match assoc k kv with Some _ => true | None => false end)
  | JStr s => Ok (contains k s)
  | JList l => Ok (existsb (fun x => eq_str x k) l)
  | JNull | JBool _ | JInt _ => Raise TypeError
  end.

(** [for x in c]: the values the loop visits. *)
Definition iter (c : json) : res (list json) :=
  match c with
  | JList l => Ok l
  | JDict kv => Ok (map (fun kv => JStr (fst kv)) kv)
  | JStr s => Ok (map JStr (chars s))
  | JNull | JBool _ | JInt _ => Raise TypeError
  end.

(** [list(d.keys())[0]] *)
Definition first_key (d : json) : res json :=
  match d with
  | JDict ((k, _) :: _) => Ok (JStr k)
  | JDict [] => Raise IndexError
  | _ => Raise AttributeError
  end.

(** [len(v)] where the program takes it. *)
Definition len (v : json) : res nat :=
  match v with
  | JList l => Ok (List.length l)
  | JDict d => Ok (List.length d)
  | JStr s => Ok (String.length s)
  | JNull | JBool _ | JInt _ => Raise TypeError
  end.

End Json.

(** ** Intent-to-command synthesis *)
Module Synth.
Import Py Json.

Definition protocols_without_port : list string :=
  ["icmp"; "igmp"; "esp"; "ah"; "ip"; "ipv6-icmp"].

Definition in_strings (s : string) (l : list string) : bool :=
  existsb (String.eqb s) l.

(** [validate_protocol_port(protocol, port)]: the pair (is_valid, message). *)
Definition validate_protocol_port (protocol : string) (port : json)
  : bool * string :=
  if in_strings (lower protocol) protocols_without_port then
    (false, "协议 '" ++ protocol ++ "' 不需要端口参数")
  else if match port with
          | JNull => true
          | JList l => (1 <? List.length l)%nat
          | _ => false
          end then
    (false, "协议 '" ++ protocol ++ "' 需要指定单个端口")
  else (true, "验证通过").

Definition add_rule_prefix : string := "nft add rule ip filter input ".

(** The full-mode branch of [generate_nft_command]. *)
Definition full_mode_commands (action protocol : string) (port : json)
  : res (list string) :=
  if eq_str port "53" && String.eqb protocol "both" then
    Ok [ add_rule_prefix ++ "tcp dport 53 " ++ action;
         add_rule_prefix ++ "udp dport 53 " ++ action ]
  else
    ps <- iter port ;;
    Ok (map (fun p =>
               let port_part :=
                 if String.eqb protocol "tcp" then "tcp dport " ++ str p
                 else "udp dport " ++ str p in
               add_rule_prefix ++ port_part ++ " " ++ action) ps).

(** The port qualifier of the ad-hoc branch: [None] is the early
    [return None] of a descending range. *)
Definition adhoc_port_part (protocol : string) (port : json)
  : res (option string) :=
  if contains "-" (str port) then
    match split_on "-" (str port) with
    | [start; end_] =>
        start_port <- int_of_str (strip start) ;;
        end_port <- int_of_str (strip end_) ;;
        if (end_port <? start_port)%Z then Ok None
        else
          Ok (Some (if String.eqb protocol "tcp"
                    then "tcp dport " ++ str_of_Z start_port ++ ":"
                         ++ str_of_Z end_port
                    else "udp dport " ++ str_of_Z start_port ++ ":"
                         ++ str_of_Z end_port))
    | _ => Raise ValueError
    end
  else Ok (Some (protocol ++ " dport " ++ str port)).

(** [protocol.lower() == 'icmp' or protocol.lower() == 'ipv6-icmp'] *)
Definition is_icmp (protocol : string) : bool :=
  String.eqb (lower protocol) "icmp" || String.eqb (lower protocol) "ipv6-icmp".

(** The dash-form range string [get_port] hands over: [str(s) + '-' + str(e)]. *)
Definition range_port (s e : N) : json :=
  JStr (str_of_N s ++ "-" ++ str_of_N e).

(** [if ip_address:] *)
Definition address_given (ip_address : option string) : option string :=
  match ip_address with
  | Some a => if String.eqb a EmptyString then None else Some a
  | None => None
  end.

(** [generate_nft_command(action, protocol, port, is_full_mode, ip_address)];
    [Ok None] is the Python [None]. *)
Definition generate_nft_command (action protocol : string) (port : json)
    (is_full_mode : bool) (ip_address : option string)
  : res (option (list string)) :=
  if is_full_mode then
    commands <- full_mode_commands action protocol port ;;
    Ok (Some commands)
  else if is_icmp protocol then
    Ok (Some [add_rule_prefix ++ protocol ++ " " ++ action])
  else
    part <- adhoc_port_part protocol port ;;
    match part with
    | None => Ok None
    | Some port_part =>
        match address_given ip_address with
        | Some a =>
            Ok (Some [add_rule_prefix ++ "ip daddr " ++ a ++ " " ++ port_part
                      ++ " " ++ action])
        | None => Ok (Some [add_rule_prefix ++ port_part ++ " " ++ action])
        end
    end.

(** What choice 1 of [main] does once [get_action], [get_protocol],
    [get_port] and [get_ip_address] have answered (no answer was the return
    to the menu). *)
Inductive create_rule_outcome : Type :=
| Rejected (message : string)
| InvalidRange
| Execute (commands : list string)
| Crashed (e : exn).

Definition main_create_rule (action protocol : string) (port : json)
    (ip_address : string) : create_rule_outcome :=
  let '(is_valid, message) := validate_protocol_port protocol port in
  if negb is_valid then Rejected message
  else match generate_nft_command action protocol port false (Some ip_address) with
       | Ok None => InvalidRange
       | Ok (Some commands) => Execute commands
       | Raise e => Crashed e
       end.

(** The catalog of [get_full_protocol_mode]. *)
Record preset : Type := { mode : string; protocol : string; ports : json }.

Definition preset_web : preset :=
  {| mode := "web"; protocol := "tcp"; ports := JList [JStr "80"; JStr "443"] |}.
Definition preset_ssh : preset :=
  {| mode := "ssh"; protocol := "tcp"; ports := JList [JStr "22"] |}.
Definition preset_dns : preset :=
  {| mode := "dns"; protocol := "both"; ports := JList [JStr "53"] |}.

(** Choice 2 of [main]: synthesis from a preset. *)
Definition generate_for_preset (action : string) (p : preset)
  : res (option (list string)) :=
  generate_nft_command action (protocol p) (ports p) true None.

End Synth.

(** ** Apply with remediation: the directive loop of [execute_command] *)
Module Orchestrator.
Import Py.

(** What [subprocess.run(..., capture_output=True, text=True)] hands back. *)
Record completed_process : Type :=
  { returncode : Z; stdout : string; stderr : string }.

(** A run completes, or raises an [Exception] the loop catches. *)
Inductive run_result : Type :=
| Completed (r : completed_process)
| RunError.

(** The calls the loop makes on the outside world, in order. *)
Inductive event : Type :=
| EvRun (argv : list string)
| EvInit.

(** [result.stderr.strip() if result.stderr else "未知错误"] *)
Definition error_text (r : completed_process) : string :=
  if String.eqb (stderr r) EmptyString then "未知错误" else strip (stderr r).

(** The error texts that trigger the initialisation of the filter table. *)
Definition missing_resource (error_msg : string) : bool :=
  contains "No such file or directory" error_msg
  || contains "Could not process rule" error_msg.

Section Loop.
(** The firewall engine and the file system, seen through the two
    functions that touch them.  [init_nftables_filter_table] catches its
    own exceptions and answers a bool the loop ignores. *)
Variable World : Type.
Variable subprocess_run : list string -> World -> run_result * World.
Variable init_nftables_filter_table : World -> bool * World.

Record loop_state : Type :=
  { success_count : nat;
    failed_commands : list string;
    trace : list event;
    world : World }.

Definition succeed (st : loop_state) (evs : list event) (w : World)
  : loop_state :=
  {| success_count := S (success_count st);
     failed_commands := failed_commands st;
     trace := trace st ++ evs;
     world := w |}.

Definition fail (st : loop_state) (cmd : string) (evs : list event)
    (w : World) : loop_state :=
  {| success_count := success_count st;
     failed_commands := failed_commands st ++ [cmd];
     trace := trace st ++ evs;
     world := w |}.

(** The body of [for cmd in commands]. *)
Definition run_directive (st : loop_state) (cmd : string) : loop_state :=
  let cmd_parts := split_ws cmd in
  let '(result, w1) := subprocess_run cmd_parts (world st) in
  match result with
  | RunError => fail st cmd [EvRun cmd_parts] w1
  | Completed r =>
      if (returncode r =? 0)%Z then succeed st [EvRun cmd_parts] w1
      else if missing_resource (error_text r) then
        let '(_, w2) := init_nftables_filter_table w1 in
        let '(result2, w3) := subprocess_run (split_ws cmd) w2 in
        let evs := [EvRun cmd_parts; EvInit; EvRun (split_ws cmd)] in
        match result2 with
        | RunError => fail st cmd evs w3
        | Completed r2 =>
            if (returncode r2 =? 0)%Z then succeed st evs w3
            else fail st cmd evs w3
        end
      else fail st cmd [EvRun cmd_parts] w1
  end.

Definition start (w : World) : loop_state :=
  {| success_count := 0; failed_commands := []; trace := []; world := w |}.

(** The loop over a list of commands, once the operator has confirmed. *)
Definition run_commands (commands : list string) (w : World) : loop_state :=
  fold_left run_directive commands (start w).

(** [return success_count == len(commands)] *)
Definition execute_command (commands : list string) (w : World)
  : bool * World :=
  let st := run_commands commands w in
  ((success_count st =? List.length commands)%nat, world st).

End Loop.

Arguments success_count {World} _.
Arguments failed_commands {World} _.
Arguments trace {World} _.
Arguments world {World} _.
Arguments run_directive {World} _ _ _ _.
Arguments run_commands {World} _ _ _ _.
Arguments execute_command {World} _ _ _ _.
Arguments start {World} _.

(** [returncode == 0] for a run that completed. *)
Definition succeeded (r : run_result) : bool :=
  match r with
  | Completed p => (returncode p =? 0)%Z
  | RunError => false
  end.

(** The calls one directive may cost: one run, or a run, the
    initialisation and one more run. *)
Definition single_attempt (cmd : string) : list event := [EvRun (split_ws cmd)].

Definition remediated_attempt (cmd : string) : list event :=
  [EvRun (split_ws cmd); EvInit; EvRun (split_ws cmd)].

(** A host on which the filter table is missing until it is initialised:
    the world is whether the table exists. *)
Definition table_missing_run (argv : list string) (table_exists : bool)
  : run_result * bool :=
  if table_exists
  then (Completed {| returncode := 0; stdout := ""; stderr := "" |}, true)
  else (Completed
          {| returncode := 1; stdout := "";
             stderr := "Error: Could not process rule: No such file or directory" |},
        false).

Definition table_init (table_exists : bool) : bool * bool := (true, true).

End Orchestrator.

(** ** The rule-expression interpreter *)
Module Interp.
Import Py Json.

(** The three accumulators of [format_rule_expression]. *)
Record fmt : Type :=
  { parts : list string; port_info : string; action : string }.

Definition fmt0 : fmt := {| parts := []; port_info := ""; action := "" |}.

Definition add_part (st : fmt) (p : string) : fmt :=
  {| parts := parts st ++ [p]; port_info := port_info st; action := action st |}.

Definition set_parts (st : fmt) (ps : list string) : fmt :=
  {| parts := ps; port_info := port_info st; action := action st |}.

Definition set_port (st : fmt) (p : string) : fmt :=
  {| parts := parts st; port_info := p; action := action st |}.

Definition set_action (st : fmt) (a : string) : fmt :=
  {| parts := parts st; port_info := port_info st; action := a |}.

(** [parts[-1] = p] *)
Definition set_last (ps : list string) (p : string) : res (list string) :=
  match ps with
  | [] => Raise IndexError
  | _ => Ok (removelast ps ++ [p])%list
  end.

(** [field in ['dport', 'sport']] *)
Definition is_port_field (field : json) : bool :=
  eq_str field "dport" || eq_str field "sport".

(** ['!' if negate else ''] *)
Definition neg_of (negate : json) : string :=
  if truthy negate then "!" else "".

(** [f"{addr}/{len}"] of a [{prefix: {addr, len}}] operand. *)
Definition prefix_text (right : json) (default_len : json) : res string :=
  prefix <- getitem right "prefix" ;;
  addr <- get prefix "addr" (JStr "") ;;
  length <- get prefix "len" default_len ;;
  Ok (str addr ++ "/" ++ str length).

(** The right operand of a relational or cmp node, unwrapped. *)
Definition right_value (right : json) (default_len : json) : res json :=
  match right with
  | JStr _ => Ok right
  | JDict d =>
      match assoc "val" d with
      | Some v => Ok v
      | None =>
          match assoc "prefix" d with
          | Some _ => t <- prefix_text right default_len ;; Ok (JStr t)
          | None => Ok (JStr (str right))
          end
      end
  | _ => Ok (JStr (str right))
  end.

Definition match_node (st : fmt) (expr : json) : res fmt :=
  m <- get expr "match" (JDict []) ;;
  op <- get m "op" (JStr "") ;;
  left <- get m "left" (JDict []) ;;
  right <- get m "right" (JStr "") ;;
  negate <- get m "negate" (JBool false) ;;
  let neg_str := neg_of negate in
  payload <- get left "payload" (JDict []) ;;
  protocol <- get payload "protocol" (JStr "") ;;
  field <- get payload "field" (JStr "") ;;
  if is_port_field field then
    Ok (set_port st (neg_str ++ "端口 " ++ str right))
  else if truthy protocol && truthy field then
    Ok (add_part st (neg_str ++ str protocol ++ " " ++ str field ++ " "
                     ++ str right))
  else if truthy right then
    Ok (add_part st (neg_str ++ str op ++ " " ++ str right))
  else Ok st.

Definition relational_node (st : fmt) (expr : json) : res fmt :=
  rel_expr <- get expr "relational" (JDict []) ;;
  op <- get rel_expr "op" (JStr "") ;;
  left <- get rel_expr "left" (JDict []) ;;
  right <- get rel_expr "right" (JStr "") ;;
  negate <- get rel_expr "negate" (JBool false) ;;
  let neg_str := neg_of negate in
  payload <- get left "payload" (JDict []) ;;
  protocol <- get payload "protocol" (JStr "") ;;
  field <- get payload "field" (JStr "") ;;
  right_val <- right_value right (JInt 0) ;;
  if is_port_field field then
    Ok (set_port st (neg_str ++ "端口 " ++ str right_val))
  else if eq_str protocol "ip" && eq_str field "daddr" then
    Ok (add_part st (neg_str ++ "ip daddr " ++ str right_val))
  else if truthy protocol && truthy field then
    Ok (add_part st (neg_str ++ str protocol ++ " " ++ str field ++ " "
                     ++ str right_val))
  else if truthy field then
    Ok (add_part st (neg_str ++ str field ++ " " ++ str right_val))
  else if truthy right_val then
    Ok (add_part st (neg_str ++ str op ++ " " ++ str right_val))
  else Ok st.

Definition cmp_node (st : fmt) (expr : json) : res fmt :=
  cmp_expr <- get expr "cmp" (JDict []) ;;
  op <- get cmp_expr "op" (JStr "") ;;
  left <- get cmp_expr "left" (JDict []) ;;
  right <- get cmp_expr "right" (JDict []) ;;
  negate <- get cmp_expr "negate" (JBool false) ;;
  let neg_str := neg_of negate in
  payload <- get left "payload" (JDict []) ;;
  protocol <- get payload "protocol" (JStr "") ;;
  field <- get payload "field" (JStr "") ;;
  right_val <- right_value right (JStr "") ;;
  if is_port_field field then
    Ok (set_port st (neg_str ++ "端口 " ++ str right_val))
  else if truthy protocol && truthy field then
    Ok (add_part st (neg_str ++ str protocol ++ " " ++ str field ++ " "
                     ++ str right_val))
  else if truthy field && truthy right_val then
    Ok (add_part st (neg_str ++ str field ++ " " ++ str right_val))
  else if truthy right_val then
    Ok (add_part st (neg_str ++ str op ++ " " ++ str right_val))
  else Ok st.

Definition payload_node (st : fmt) (expr : json) : res fmt :=
  payload <- get expr "payload" (JDict []) ;;
  protocol <- get payload "protocol" (JStr "") ;;
  field <- get payload "field" (JStr "") ;;
  value <- get payload "value" (JStr "") ;;
  if is_port_field field then Ok (set_port st ("端口 " ++ str value))
  else if truthy protocol && truthy field then
    Ok (add_part st (str protocol ++ " " ++ str field ++ " " ++ str value))
  else Ok st.

Definition meta_node (st : fmt) (expr : json) : res fmt :=
  meta <- get expr "meta" (JDict []) ;;
  key <- get meta "key" (JStr "") ;;
  let parts1 :=
    if truthy key then (parts st ++ [("meta " ++ str key)%string])%list
    else parts st in
  negate <- get meta "negate" (JBool false) ;;
  let neg_str := neg_of negate in
  left <- get meta "left" (JDict []) ;;
  right <- get meta "right" (JStr "") ;;
  parts2 <-
    (if truthy left then
       left_type <- first_key left ;;
       if eq_str left_type "meta" then
         left_meta <- getitem left "meta" ;;
         left_key <- get left_meta "key" (JStr "") ;;
         if truthy left_key then set_last parts1 (neg_str ++ str left_key)
         else Ok parts1
       else Ok parts1
     else Ok parts1) ;;
  match right with
  | JStr r => Ok (set_parts st (parts2 ++ [(neg_str ++ r)%string]))
  | JDict d =>
      match assoc "val" d with
      | Some v => Ok (set_parts st (parts2 ++ [(neg_str ++ str v)%string]))
      | None =>
          match assoc "prefix" d with
          | Some _ =>
              right_val <- prefix_text right (JStr "") ;;
              Ok (set_parts st (parts2 ++ [(neg_str ++ right_val)%string]))
          | None => Ok (set_parts st parts2)
          end
      end
  | _ => Ok (set_parts st parts2)
  end.

Definition ct_node (st : fmt) (expr : json) : res fmt :=
  ct <- get expr "ct" (JDict []) ;;
  direction <- get ct "direction" (JStr "") ;;
  key <- get ct "key" (JStr "") ;;
  if truthy direction && truthy key then
    Ok (add_part st ("ct " ++ str direction ++ " " ++ str key))
  else if truthy key then Ok (add_part st ("ct " ++ str key))
  else Ok st.

Definition counter_node (st : fmt) (expr : json) : res fmt :=
  counter <- get expr "counter" (JDict []) ;;
  packets <- get counter "packets" (JInt 0) ;;
  bytes_count <- get counter "bytes" (JInt 0) ;;
  Ok (add_part st ("计数器: " ++ str packets ++ "包 " ++ str bytes_count
                   ++ "字节")).

Definition jump_node (st : fmt) (expr : json) : res fmt :=
  jump <- get expr "jump" (JDict []) ;;
  target <- get jump "target" (JStr "") ;;
  if truthy target then Ok (add_part st ("跳转到 " ++ str target)) else Ok st.

Definition xt_node (st : fmt) (expr : json) : res fmt :=
  xt <- get expr "xt" (JDict []) ;;
  target <- get xt "target" (JStr "") ;;
  if truthy target then Ok (add_part st ("[" ++ str target ++ "]")) else Ok st.

(** The body of [for expr in expr_list]; the node kind is the first key. *)
Definition step (st : fmt) (expr : json) : res fmt :=
  if negb (truthy expr) then Ok st
  else
    expr_type <- first_key expr ;;
    if eq_str expr_type "match" then match_node st expr
    else if eq_str expr_type "relational" then relational_node st expr
    else if eq_str expr_type "cmp" then cmp_node st expr
    else if eq_str expr_type "payload" then payload_node st expr
    else if eq_str expr_type "meta" then meta_node st expr
    else if eq_str expr_type "ct" then ct_node st expr
    else if eq_str expr_type "accept" then Ok (set_action st "放行")
    else if eq_str expr_type "drop" then Ok (set_action st "拒绝")
    else if eq_str expr_type "reject" then Ok (set_action st "拒绝")
    else if eq_str expr_type "log" then Ok (add_part st "LOG")
    else if eq_str expr_type "counter" then counter_node st expr
    else if eq_str expr_type "jump" then jump_node st expr
    else if eq_str expr_type "return" then Ok (add_part st "返回")
    else if eq_str expr_type "xt" then xt_node st expr
    else if eq_str expr_type "snat" then Ok (set_action st "源NAT")
    else if eq_str expr_type "dnat" then Ok (set_action st "目标NAT")
    else if eq_str expr_type "masquerade" then Ok (set_action st "伪装")
    else if eq_str expr_type "redir" then Ok (set_action st "重定向")
    else Ok st.

(** The three optional slots, in display order. *)
Definition result_parts (st : fmt) : list string :=
  ((if String.eqb (port_info st) "" then [] else [port_info st])
   ++ (match parts st with [] => [] | _ => [join " " (parts st)] end)
   ++ (if String.eqb (action st) "" then [] else [action st]))%list.

Definition assemble (st : fmt) : string :=
  match result_parts st with
  | [] => match parts st with
          | [] => "(复杂规则)"
          | _ => join " " (parts st)
          end
  | rp => join " " rp
  end.

(** The node nft prints for [<protocol> <field> <right>]. *)
Definition payload_match (protocol field : string) (right : json) : json :=
  JDict [("match",
          JDict [("op", JStr "==");
                 ("left", JDict [("payload",
                                  JDict [("protocol", JStr protocol);
                                         ("field", JStr field)])]);
                 ("right", right)])].

(** [body.get('left', {}).get('payload', {}).get('field', '')]: the field a
    match, relational or cmp branch tests. *)
Definition comparison_field (body : json) : res json :=
  left <- get body "left" (JDict []) ;;
  payload <- get left "payload" (JDict []) ;;
  get payload "field" (JStr "").

(** The field that the branch of a node tests against [['dport', 'sport']]:
    a node is read by the branch of its first key, and only the branches of
    the kinds match, relational, cmp and payload make that test. *)
Definition tested_field (e : json) : res (option json) :=
  if negb (truthy e) then Ok None
  else
    expr_type <- first_key e ;;
    if eq_str expr_type "match" then
      body <- get e "match" (JDict []) ;;
      field <- comparison_field body ;; Ok (Some field)
    else if eq_str expr_type "relational" then
      body <- get e "relational" (JDict []) ;;
      field <- comparison_field body ;; Ok (Some field)
    else if eq_str expr_type "cmp" then
      body <- get e "cmp" (JDict []) ;;
      field <- comparison_field body ;; Ok (Some field)
    else if eq_str expr_type "payload" then
      body <- get e "payload" (JDict []) ;;
      field <- get body "field" (JStr "") ;; Ok (Some field)
    else Ok None.

(** A port node: a match, relational, cmp or payload node whose field is
    dport or sport. *)
Definition is_port_node (e : json) : bool :=
  match tested_field e with
  | Ok (Some field) => is_port_field field
  | _ => false
  end.

(** The text assigned to [port_info] at lines 1347, 1382, 1419 and 1434,
    from the members of the node alone. *)
Definition port_text (e : json) : res string :=
  expr_type <- first_key e ;;
  if eq_str expr_type "match" then
    body <- get e "match" (JDict []) ;;
    right <- get body "right" (JStr "") ;;
    negate <- get body "negate" (JBool false) ;;
    Ok (neg_of negate ++ "端口 " ++ str right)
  else if eq_str expr_type "relational" then
    body <- get e "relational" (JDict []) ;;
    right <- get body "right" (JStr "") ;;
    negate <- get body "negate" (JBool false) ;;
    right_val <- right_value right (JInt 0) ;;
    Ok (neg_of negate ++ "端口 " ++ str right_val)
  else if eq_str expr_type "cmp" then
    body <- get e "cmp" (JDict []) ;;
    right <- get body "right" (JDict []) ;;
    negate <- get body "negate" (JBool false) ;;
    right_val <- right_value right (JStr "") ;;
    Ok (neg_of negate ++ "端口 " ++ str right_val)
  else
    body <- get e "payload" (JDict []) ;;
    value <- get body "value" (JStr "") ;;
    Ok ("端口 " ++ str value).

(** A comparison node of the given kind on [<protocol> <field>], with the
    value wrapped the way the relational and cmp branches unwrap it. *)
Definition comparison_node (kind protocol field : string) (val : json)
  : json :=
  JDict [(kind,
          JDict [("op", JStr "==");
                 ("left", JDict [("payload",
                                  JDict [("protocol", JStr protocol);
                                         ("field", JStr field)])]);
                 ("right", JDict [("val", val)])])].

(** A payload node carrying its value. *)
Definition payload_value_node (protocol field : string) (value : json)
  : json :=
  JDict [("payload",
          JDict [("protocol", JStr protocol); ("field", JStr field);
                 ("value", value)])].

(** The port descriptor a node writes, if it writes one: what it leaves in
    [port_info] when it is the only node. *)
Definition node_port (e : json) : option string :=
  match step fmt0 e with
  | Ok st => if String.eqb (port_info st) "" then None else Some (port_info st)
  | Raise _ => None
  end.

(** The port descriptors the nodes of a list write, in list order. *)
Definition port_descriptors (l : list json) : list string :=
  flat_map (fun e => match node_port e with Some d => [d] | None => [] end) l.

(** What a node can do to the port descriptor: leave it alone, or overwrite
    it with a text of its own. *)
Definition port_stable (g : fmt -> res fmt) : Prop :=
  forall st st', g st = Ok st' -> port_info st' = port_info st.

Definition port_sets (g : fmt -> res fmt) (d : string) : Prop :=
  d <> "" /\ forall st, g st = Ok (set_port st d).

Definition port_effect (g : fmt -> res fmt) : Prop :=
  port_stable g \/ exists d, port_sets g d.

(** [tcp dport 22 tcp sport 80 accept], as nft dumps it. *)
Definition ssh_from_80 : list json :=
  [payload_match "tcp" "dport" (JInt 22);
   payload_match "tcp" "sport" (JInt 80);
   JDict [("accept", JNull)]].

(** [format_rule_expression(expr_list)] *)
Definition format_rule_expression (expr_list : json) : res string :=
  if negb (truthy expr_list) then Ok "(空规则)"
  else
    nodes <- iter expr_list ;;
    st <- foldM step nodes fmt0 ;;
    Ok (assemble st).

End Interp.

(** ** Search and summary over the ruleset dump *)
Module Query.
Import Py Json.

(** The dump of [nft -j list ruleset]: [{"nftables": [...]}]. *)
Definition forest (items : list json) : json :=
  JDict [("nftables", JList items)].

(** One rule entry of the dump: [{"rule": {...}}]. *)
Definition rule_item (r : json) : json := JDict [("rule", r)].

Definition rule_entry (fam tab ch : string) (h : Z) (expr : list json) : json :=
  rule_item (JDict [("family", JStr fam); ("table", JStr tab);
                    ("chain", JStr ch); ("handle", JInt h);
                    ("expr", JList expr)]).

(** One entry of the list [search_rules_by_port] returns. *)
Record rule_record : Type :=
  { family : json;
    table : json;
    chain : json;
    rule : string;
    port_info : string;
    handle : json }.

(** [right if isinstance(right, int) else int(right)] *)
Definition right_number (right : json) : res json :=
  if is_int right then Ok right else z <- int right ;; Ok (JInt z).

Definition num_eqb (v : json) (z : Z) : bool :=
  match num v with
  | Some n => (n =? z)%Z
  | None => false
  end.

(** One turn of [for e in expr]: [Some port_info] is the [break]. *)
Definition scan_node (protocol : string) (port_int : Z) (e : json)
  : res (option string) :=
  has_match <- member "match" e ;;
  if has_match then
    m <- getitem e "match" ;;
    left <- get m "left" (JDict []) ;;
    right <- get m "right" (JStr "") ;;
    payload <- get left "payload" (JDict []) ;;
    proto <- get payload "protocol" (JStr "") ;;
    field <- get payload "field" (JStr "") ;;
    if eq_str proto protocol && eq_str field "dport" then
      right_val <- right_number right ;;
      if num_eqb right_val port_int then
        Ok (Some (str proto ++ " dport " ++ str right_val))
      else Ok None
    else Ok None
  else Ok None.

Fixpoint scan_expr (protocol : string) (port_int : Z) (nodes : list json)
  : res (option string) :=
  match nodes with
  | [] => Ok None
  | e :: rest =>
      found <- scan_node protocol port_int e ;;
      match found with
      | Some info => Ok (Some info)
      | None => scan_expr protocol port_int rest
      end
  end.

(** The body of [for item in ruleset_data.get('nftables', [])]. *)
Definition search_item (protocol : string) (port_int : Z)
    (matches : list rule_record) (item : json) : res (list rule_record) :=
  is_rule <- member "rule" item ;;
  if is_rule then
    r <- getitem item "rule" ;;
    expr <- get r "expr" (JList []) ;;
    rule_family <- get r "family" (JStr "") ;;
    rule_table <- get r "table" (JStr "") ;;
    rule_chain <- get r "chain" (JStr "") ;;
    nodes <- iter expr ;;
    found <- scan_expr protocol port_int nodes ;;
    match found with
    | Some info =>
        desc <- Interp.format_rule_expression expr ;;
        h <- get r "handle" (JStr "") ;;
        Ok (matches ++ [{| family := rule_family; table := rule_table;
                           chain := rule_chain; rule := desc;
                           port_info := info; handle := h |}])%list
    | None => Ok matches
    end
  else Ok matches.

(** [search_rules_by_port] from [matches = []] to [return matches]. *)
Definition search_rules (ruleset_data : json) (port : json)
    (protocol : string) : res (list rule_record) :=
  port_int <- int port ;;
  entries <- get ruleset_data "nftables" (JList []) ;;
  items <- iter entries ;;
  foldM (search_item protocol port_int) items [].

(** [search_rules_by_port(port, protocol)] on the dump the nft query
    printed: [None] when the query failed or its output is not JSON, and
    when anything raised. *)
Definition search_rules_by_port (dump : option json) (port : json)
    (protocol : string) : option (list rule_record) :=
  match dump with
  | None => None
  | Some ruleset_data =>
      match search_rules ruleset_data port protocol with
      | Ok matches => Some matches
      | Raise _ => None
      end
  end.



(** The dict [get_rule_summary] returns. *)
Record summary : Type := { input_rules : nat; input_port_rules : nat }.

(** [rule.get('chain') == 'input' and rule.get('family') == 'ip' and
    rule.get('table') == 'filter'] *)
Definition is_managed (r : json) : res bool :=
  c <- get r "chain" JNull ;;
  if eq_str c "input" then
    f <- get r "family" JNull ;;
    if eq_str f "ip" then
      t <- get r "table" JNull ;;
      Ok (eq_str t "filter")
    else Ok false
  else Ok false.

(** The body of the counting loop. *)
Definition summary_item (acc : summary) (item : json) : res summary :=
  is_rule <- member "rule" item ;;
  if is_rule then
    r <- getitem item "rule" ;;
    managed <- is_managed r ;;
    if managed then
      expr <- get r "expr" (JList []) ;;
      rule_desc <- Interp.format_rule_expression expr ;;
      Ok {| input_rules := S (input_rules acc);
            input_port_rules :=
              if contains "端口" rule_desc then S (input_port_rules acc)
              else input_port_rules acc |}
    else Ok acc
  else Ok acc.

Definition summarize (ruleset_data : json) : res summary :=
  entries <- get ruleset_data "nftables" JNull ;;
  if negb (truthy entries) then
    Ok {| input_rules := 0; input_port_rules := 0 |}
  else
    entries' <- getitem ruleset_data "nftables" ;;
    items <- iter entries' ;;
    foldM summary_item items {| input_rules := 0; input_port_rules := 0 |}.

(** [get_rule_summary(ruleset_data)] for a dump that is given. *)
Definition get_rule_summary (ruleset_data : json) : option summary :=
  match summarize ruleset_data with
  | Ok s => Some s
  | Raise _ => None
  end.

End Query.

(** ** Port validation and the port prompt *)
Module Validate.
Import Py Json.

Definition MAX_PORT : Z := 65535.
Definition MIN_PORT : Z := 1.

(** [re.sub(r'[\x00-\x1f\x7f-\x9f]', '', s)] on UTF-8 text: the C0 controls
    and DEL are single bytes, the C1 controls U+0080..U+009F are the byte
    0xC2 followed by 0x80..0x9F. *)
Fixpoint remove_controls (s : string) : string :=
  match s with
  | EmptyString => EmptyString
  | String c r =>
      let n := nat_of_ascii c in
      if (n <? 32)%nat || (n =? 127)%nat then remove_controls r
      else if (n =? 194)%nat then
        match r with
        | String d r' =>
            if (128 <=? nat_of_ascii d)%nat && (nat_of_ascii d <=? 159)%nat
            then remove_controls r'
            else String c (remove_controls r)
        | EmptyString => String c EmptyString
        end
      else String c (remove_controls r)
  end.

(** Characters [remove_controls] keeps whatever follows them. *)
Definition plain (c : ascii) : bool :=
  let n := nat_of_ascii c in
  negb ((n <? 32)%nat || (n =? 127)%nat || (n =? 194)%nat).

(** A byte of ASCII text, and the control characters among them. *)
Definition is_ascii (c : ascii) : bool := (nat_of_ascii c <? 128)%nat.

Definition is_control (c : ascii) : bool :=
  (nat_of_ascii c <? 32)%nat || (nat_of_ascii c =? 127)%nat.

(** [sanitize_input(input_str)] *)
Definition sanitize_input (input_str : string) : string :=
  if String.eqb input_str "" then "" else strip (remove_controls input_str).

(** [s.isdigit()] *)
Definition isdigit (s : string) : bool :=
  negb (String.eqb s "") && all_chars is_digit s.

Definition in_port_bounds (z : Z) : bool :=
  ((MIN_PORT <=? z) && (z <=? MAX_PORT))%Z.

(** [is_valid_port(port)]: a [ValueError] or [TypeError] of [int] is the
    answer [False]. *)
Definition is_valid_port (port : json) : bool :=
  match int port with
  | Ok port_int => in_port_bounds port_int
  | Raise _ => false
  end.

(** What [is_valid_port_range] returns: the flag, the ports and a text. *)
Definition range_result : Type := bool * option (list Z) * string.

(** The loop over a comma-separated list: the first invalid port ends it. *)
Fixpoint check_ports (ports : list string) (valid_ports : list Z)
  : res range_result :=
  match ports with
  | [] => Ok (true, Some valid_ports, "多端口")
  | port :: rest =>
      if negb (is_valid_port (JStr port)) then
        Ok (false, None, "端口 '" ++ port ++ "' 无效，必须在1-65535之间")
      else
        p <- int (JStr port) ;;
        check_ports rest (valid_ports ++ [p])
  end.

(** [is_valid_port_range(port_input)] *)
Definition is_valid_port_range (port_input : string) : res range_result :=
  let port_input := sanitize_input port_input in
  if String.eqb port_input "" then Ok (false, None, "输入不能为空")
  else if contains "," port_input then
    check_ports (map strip (split_on "," port_input)) []
  else if contains "-" port_input then
    match split_on "-" port_input with
    | [p0; p1] =>
        let start_str := strip p0 in
        let end_str := strip p1 in
        if negb (isdigit start_str && isdigit end_str) then
          Ok (false, None, "端口号必须为数字")
        else
          start_port <- int_of_str start_str ;;
          end_port <- int_of_str end_str ;;
          if negb ((MIN_PORT <=? start_port)%Z && (start_port <=? end_port)%Z
                   && (end_port <=? MAX_PORT)%Z) then
            Ok (false, None,
                "端口号必须在1-65535之间，且起始端口小于等于结束端口")
          else
            Ok (true, Some [start_port; end_port],
                str_of_Z start_port ++ "-" ++ str_of_Z end_port)
    | _ => Ok (false, None, "端口范围格式错误")
    end
  else if isdigit port_input then
    if negb (is_valid_port (JStr port_input)) then
      Ok (false, None, "端口号必须在1-65535之间")
    else
      p <- int_of_str port_input ;;
      Ok (true, Some [p], port_input)
  else Ok (false, None, "无效输入格式").

(** One turn of the loop of [get_port] on the line the operator typed:
    the return to the menu, another turn, or the value returned. *)
Inductive port_answer : Type :=
| PortMenu
| PortRetry
| PortValue (v : json).

(** [port.isdigit() and 1 <= int(port) <= 65535]; an exception ends the
    turn like an invalid port. *)
Definition port_text_ok (port : string) : bool :=
  isdigit port
  && match int_of_str port with
     | Ok p => ((1 <=? p) && (p <=? 65535))%Z
     | Raise _ => false
     end.

Definition get_port_step (line : string) : port_answer :=
  let port_input := strip line in
  if String.eqb (lower port_input) "menu" then PortMenu
  else if String.eqb port_input "" then PortRetry
  else if contains "," port_input then
    let ports := map strip (split_on "," port_input) in
    if forallb port_text_ok ports then
      match ports with
      | [] => PortRetry
      | _ => PortValue (JList (map JStr ports))
      end
    else PortRetry
  else if contains "-" port_input then
    match split_on "-" port_input with
    | [p0; p1] =>
        if isdigit (strip p0) && isdigit (strip p1) then
          match int_of_str (strip p0), int_of_str (strip p1) with
          | Ok start_port, Ok end_port =>
              if ((1 <=? start_port) && (start_port <=? end_port)
                  && (end_port <=? 65535))%Z
              then PortValue (JStr port_input)
              else PortRetry
          | _, _ => PortRetry
          end
        else PortRetry
    | _ => PortRetry
    end
  else if isdigit port_input then
    match int_of_str port_input with
    | Ok port =>
        if ((1 <=? port) && (port <=? 65535))%Z
        then PortValue (JStr port_input)
        else PortRetry
    | Raise _ => PortRetry
    end
  else PortRetry.

End Validate.

(** ** Node kinds of the interpreter *)
Module Kinds.
Import Py Json.

(** The node kinds [format_rule_expression] has a branch for. *)
Definition known_kinds : list string :=
  ["match"; "relational"; "cmp"; "payload"; "meta"; "ct"; "accept"; "drop";
   "reject"; "log"; "counter"; "jump"; "return"; "xt"; "snat"; "dnat";
   "masquerade"; "redir"].

(** A node the loop passes over: a falsy one, or a dict whose first key is
    none of the known kinds. *)
Definition passed_over (e : json) : bool :=
  negb (truthy e)
  || match e with
     | JDict ((k, _) :: _) => negb (existsb (String.eqb k) known_kinds)
     | _ => false
     end.

End Kinds.

(** ** Running one command text, and deleting a rule *)
Module Commands.
Import Py Json Orchestrator.

(** [delete_rule(family, table, chain, handle)] *)
Definition delete_rule (family table chain handle : json) : string :=
  "nft delete rule " ++ str family ++ " " ++ str table ++ " " ++ str chain
  ++ " handle " ++ str handle.

(** [cmd_parts] of [delete_nft_rule]. *)
Definition delete_argv (family table chain : string) (handle : json)
  : list string :=
  ["nft"; "delete"; "rule"; family; table; chain; "handle"; str handle].

(** A string of ASCII characters without whitespace that is not empty: one
    word of [split()]. *)
Definition word (s : string) : bool :=
  negb (String.eqb s "")
  && all_chars (fun c => Validate.is_ascii c && negb (is_space c)) s.

Section Run.
Variable World : Type.
Variable subprocess_run : list string -> World -> run_result * World.
Variable init_nftables_filter_table : World -> bool * World.

(** The branch of [execute_command] for a command that is one string, once
    the operator has confirmed: the answer, the calls made, the world. *)
Definition execute_string (commands : string) (w : World)
  : bool * list event * World :=
  let cmd_parts := split_ws commands in
  let '(result, w1) := subprocess_run cmd_parts w in
  match result with
  | RunError => (false, [EvRun cmd_parts], w1)
  | Completed r =>
      if (returncode r =? 0)%Z then (true, [EvRun cmd_parts], w1)
      else if missing_resource (error_text r) then
        let '(_, w2) := init_nftables_filter_table w1 in
        let '(result2, w3) := subprocess_run (split_ws commands) w2 in
        let evs := [EvRun cmd_parts; EvInit; EvRun (split_ws commands)] in
        match result2 with
        | RunError => (false, evs, w3)
        | Completed r2 =>
            if (returncode r2 =? 0)%Z then (true, evs, w3)
            else (false, evs, w3)
        end
      else (false, [EvRun cmd_parts], w1)
  end.

(** [delete_nft_rule(family, table, chain, handle)]: [' '.join(cmd_parts)]
    raises on a part that is not a string; the run itself is guarded. *)
Definition delete_nft_rule (family table chain handle : json) (w : World)
  : res (bool * list event * World) :=
  match family, table, chain with
  | JStr f, JStr t, JStr c =>
      let cmd_parts := delete_argv f t c handle in
      let '(result, w1) := subprocess_run cmd_parts w in
      Ok (succeeded result, [EvRun cmd_parts], w1)
  | _, _, _ => Raise TypeError
  end.
End Run.

Arguments execute_string {World} _ _ _ _.
Arguments delete_nft_rule {World} _ _ _ _ _ _.

End Commands.

(** ** The rule list of the query menu *)
Module Listing.
Import Py Json Orchestrator Commands.

(** One entry of [all_rules]. *)
Record listed_rule : Type :=
  { id : nat;
    family : json;
    table : json;
    chain : json;
    handle : json;
    rule : json }.

(** One entry of [port_rules], the list [display_rules] prints. *)
Record port_rule : Type :=
  { port_handle : json; description : string; expr : json }.

(** The body of the first loop of [display_rules]. *)
Definition port_item (acc : list port_rule) (item : json)
  : res (list port_rule) :=
  metainfo <- get item "metainfo" JNull ;;
  if truthy metainfo then Ok acc
  else
    is_rule <- member "rule" item ;;
    if is_rule then
      r <- getitem item "rule" ;;
      rule_family <- get r "family" (JStr "") ;;
      rule_table <- get r "table" (JStr "") ;;
      rule_chain <- get r "chain" (JStr "") ;;
      rule_handle <- get r "handle" (JStr "") ;;
      if eq_str rule_chain "input" && eq_str rule_family "ip"
         && eq_str rule_table "filter" then
        e <- get r "expr" (JList []) ;;
        rule_desc <- Interp.format_rule_expression e ;;
        if contains "端口" rule_desc then
          Ok (acc ++ [{| port_handle := rule_handle;
                         description := rule_desc; expr := e |}])%list
        else Ok acc
      else Ok acc
    else Ok acc.

(** The body of the second loop: the counter [rule_id] and [all_rules]. *)
Definition list_item (acc : nat * list listed_rule) (item : json)
  : res (nat * list listed_rule) :=
  is_rule <- member "rule" item ;;
  if is_rule then
    r <- getitem item "rule" ;;
    managed <- Query.is_managed r ;;
    if managed then
      let rule_id := S (fst acc) in
      f <- get r "family" JNull ;;
      t <- get r "table" JNull ;;
      c <- get r "chain" JNull ;;
      h <- get r "handle" JNull ;;
      Ok (rule_id,
          (snd acc ++ [{| id := rule_id; family := f; table := t; chain := c;
                          handle := h; rule := r |}])%list)
    else Ok acc
  else Ok acc.

(** What the second loop of [display_rules] keeps true. *)
Definition numbered (acc : nat * list listed_rule) : Prop :=
  map id (snd acc) = seq 1 (fst acc)
  /\ List.length (snd acc) = fst acc
  /\ Forall (fun r => family r = JStr "ip" /\ table r = JStr "filter"
                      /\ chain r = JStr "input") (snd acc).

(** The port rules [display_rules(ruleset_data)] prints. *)
Definition port_rules (ruleset_data : json) : res (list port_rule) :=
  items <- iter ruleset_data ;;
  foldM port_item items [].

(** [display_rules(ruleset_data)]: the list it returns. *)
Definition display_rules (ruleset_data : json) : res (list listed_rule) :=
  _ <- port_rules ruleset_data ;;
  items <- iter ruleset_data ;;
  listed <- foldM list_item items (0%nat, []) ;;
  Ok (snd listed).

(** The answer to the line typed at the deletion prompt of
    [query_nft_rules]: back to the menu, the prompt again, or the rule
    numbers to delete. *)
Inductive selection : Type :=
| SelMenu
| SelRetry
| SelChosen (valid_rules : list Z).

Fixpoint parse_each (xs : list string) : res (list Z) :=
  match xs with
  | [] => Ok []
  | x :: rest =>
      n <- int_of_str (strip x) ;;
      ns <- parse_each rest ;;
      Ok (n :: ns)
  end.

(** [rule_nums], or the [ValueError] of a part that is no number. *)
Definition parse_numbers (delete_input : string) : res (list Z) :=
  if contains "," delete_input then parse_each (split_on "," delete_input)
  else n <- int_of_str delete_input ;; Ok [n].

Definition in_list_range (n_rules : nat) (rule_num : Z) : bool :=
  ((1 <=? rule_num) && (rule_num <=? Z.of_nat n_rules))%Z.

Definition select_rules (n_rules : nat) (line : string) : selection :=
  let delete_input := lower (strip line) in
  if String.eqb delete_input "menu" then SelMenu
  else match parse_numbers delete_input with
       | Raise _ => SelRetry
       | Ok rule_nums =>
           let valid_rules := filter (in_list_range n_rules) rule_nums in
           let invalid_rules :=
             filter (fun n => negb (in_list_range n_rules n)) rule_nums in
           match invalid_rules with
           | _ :: _ => SelRetry
           | [] => match valid_rules with
                   | [] => SelRetry
                   | _ => SelChosen valid_rules
                   end
           end
       end.

(** The deletions issued so far all address chain input of ip filter. *)
Definition input_chain_deletions (evs : list event) : Prop :=
  Forall (fun ev => exists h,
              ev = EvRun ["nft"; "delete"; "rule"; "ip"; "filter"; "input";
                          "handle"; h]) evs.

Section Delete.
Variable World : Type.
Variable subprocess_run : list string -> World -> run_result * World.

(** The body of the deletion loop, once the operator has confirmed. *)
Definition delete_one (all_rules : list listed_rule)
    (acc : list event * World) (rule_num : Z) : res (list event * World) :=
  match nth_error all_rules (Z.to_nat (rule_num - 1)) with
  | None => Raise IndexError
  | Some rule_to_delete =>
      if truthy (handle rule_to_delete) then
        r <- delete_nft_rule subprocess_run (family rule_to_delete)
               (table rule_to_delete) (chain rule_to_delete)
               (handle rule_to_delete) (snd acc) ;;
        let '(_, evs, w) := r in
        Ok ((fst acc ++ evs)%list, w)
      else Ok acc
  end.

Definition delete_chosen (all_rules : list listed_rule)
    (valid_rules : list Z) (w : World) : res (list event * World) :=
  foldM (delete_one all_rules) valid_rules ([], w).
End Delete.

Arguments delete_one {World} _ _ _ _.
Arguments delete_chosen {World} _ _ _ _.

(** One entry of the list [advanced_rule_search] returns. *)
Record text_match : Type :=
  { m_family : json;
    m_table : json;
    m_chain : json;
    m_rule : string;
    match_reason : string }.

(** The body of the loop of [advanced_rule_search]. *)
Definition text_item (search_term : string) (matches : list text_match)
    (item : json) : res (list text_match) :=
  is_rule <- member "rule" item ;;
  if is_rule then
    r <- getitem item "rule" ;;
    e <- get r "expr" (JList []) ;;
    desc <- Interp.format_rule_expression e ;;
    let rule_text := lower desc in
    table_info <- get item "table" (JDict []) ;;
    chain_info <- get item "chain" (JDict []) ;;
    if contains (lower search_term) rule_text then
      f <- get table_info "family" (JStr "unknown") ;;
      t <- get table_info "name" (JStr "unknown") ;;
      c <- get chain_info "name" (JStr "unknown") ;;
      desc2 <- Interp.format_rule_expression e ;;
      Ok (matches ++ [{| m_family := f; m_table := t; m_chain := c;
                         m_rule := desc2;
                         match_reason := "规则文本包含: " ++ search_term |}])%list
    else Ok matches
  else Ok matches.

(** [advanced_rule_search(search_term)] on the dump the nft query printed:
    [None] when the query failed or its output is not JSON, and when
    anything raised. *)
Definition advanced_rule_search (dump : option json) (search_term : string)
  : option (list text_match) :=
  match dump with
  | None => None
  | Some ruleset_data =>
      match (entries <- get ruleset_data "nftables" (JList []) ;;
             items <- iter entries ;;
             foldM (text_item search_term) items []) with
      | Ok matches => Some matches
      | Raise _ => None
      end
  end.

End Listing.

(** ** Detecting the distribution and installing nftables *)
Module Install.
Import Py Json Orchestrator.

Fixpoint lstrip_by (p : ascii -> bool) (s : string) : string :=
  match s with
  | EmptyString => EmptyString
  | String c r => if p c then lstrip_by p r else s
  end.

Fixpoint rstrip_by (p : ascii -> bool) (s : string) : string :=
  match s with
  | EmptyString => EmptyString
  | String c r =>
      match rstrip_by p r with
      | EmptyString => if p c then EmptyString else String c EmptyString
      | r' => String c r'
      end
  end.

(** [s.strip(q)] for the double quote [q]. *)
Definition strip_quotes (s : string) : string :=
  rstrip_by (fun c => Ascii.eqb c dquote)
    (lstrip_by (fun c => Ascii.eqb c dquote) s).

(** The family a distribution id stands for; an id of no known family is
    returned as it is. *)
Definition classify (distro : string) : string :=
  if contains "ubuntu" distro || contains "debian" distro then "debian"
  else if contains "centos" distro || contains "rhel" distro
          || contains "fedora" distro || contains "rocky" distro
          || contains "alma" distro then "rhel"
  else if contains "arch" distro then "arch"
  else if contains "opensuse" distro || contains "suse" distro then "suse"
  else if contains "alpine" distro then "alpine"
  else distro.

(** [line.strip().split('=')[1].lower()] and the quotes stripped. *)
Definition id_value (line : string) : res string :=
  match split_on "=" (strip line) with
  | _ :: v :: _ => Ok (strip_quotes (lower v))
  | _ => Raise IndexError
  end.

(** The loop over the lines of /etc/os-release: [Some] is a [return],
    [None] the end of the file. *)
Fixpoint distro_of_lines (lines : list string) : res (option string) :=
  match lines with
  | [] => Ok None
  | line :: rest =>
      if String.prefix "ID=" line then
        distro <- id_value line ;;
        Ok (Some (classify distro))
      else distro_of_lines rest
  end.

(** The commands [install_nftables] runs for a family. *)
Definition install_commands (distro : string) : option (list (list string)) :=
  if String.eqb distro "debian" then
    Some [["apt-get"; "update"]; ["apt-get"; "install"; "-y"; "nftables"]]
  else if String.eqb distro "rhel" then
    Some [["yum"; "install"; "-y"; "nftables"];
          ["dnf"; "install"; "-y"; "nftables"]]
  else if String.eqb distro "arch" then
    Some [["pacman"; "-Sy"; "--noconfirm"; "nftables"]]
  else if String.eqb distro "suse" then
    Some [["zypper"; "install"; "-y"; "nftables"]]
  else if String.eqb distro "alpine" then
    Some [["apk"; "add"; "nftables"]]
  else None.

(** A call either returns, or an exception of [subprocess.run] that no
    handler catches leaves the function. *)
Inductive outcome (A : Type) : Type :=
| Returned (a : A)
| Escaped.
Arguments Returned {A} a.
Arguments Escaped {A}.

Section Installer.
Variable World : Type.
Variable subprocess_run : list string -> World -> run_result * World.
(** [os.geteuid() == 0], and the lines of /etc/os-release when the file
    exists and can be read. *)
Variable is_root : bool.
Variable os_release : option (list string).

(** The calls made so far and the world. *)
Definition sys : Type := list event * World.

Definition run_logged (argv : list string) (s : sys) : run_result * sys :=
  let '(r, w) := subprocess_run argv (snd s) in
  (r, ((fst s ++ [EvRun argv])%list, w)).

(** [check_nftables_installed()]: its own handler turns an exception into
    the answer "not installed". *)
Definition check_nftables_installed (s : sys) : bool * sys :=
  let '(r, s1) := run_logged ["which"; "nft"] s in
  (succeeded r, s1).

(** The probes [which apt-get], [which yum], [which dnf], [which pacman]. *)
Fixpoint probe (candidates : list (string * string)) (s : sys)
  : outcome string * sys :=
  match candidates with
  | [] => (Returned "unknown", s)
  | (tool, distro) :: rest =>
      let '(r, s1) := run_logged ["which"; tool] s in
      match r with
      | RunError => (Escaped, s1)
      | Completed p =>
          if (returncode p =? 0)%Z then (Returned distro, s1)
          else probe rest s1
      end
  end.

(** [detect_linux_distro()] *)
Definition detect_linux_distro (s : sys) : outcome string * sys :=
  let from_file :=
    match os_release with
    | Some lines =>
        match distro_of_lines lines with
        | Ok found => found
        | Raise _ => None
        end
    | None => None
    end in
  match from_file with
  | Some distro => (Returned distro, s)
  | None =>
      probe [("apt-get", "debian"); ("yum", "rhel"); ("dnf", "rhel");
             ("pacman", "arch")] s
  end.

(** The loop over the commands of a family: the flag [success]. *)
Fixpoint run_install (cmds : list (list string)) (success : bool) (s : sys)
  : outcome bool * sys :=
  match cmds with
  | [] => (Returned success, s)
  | cmd :: rest =>
      let '(r, s1) := run_logged cmd s in
      match r with
      | RunError => (Escaped, s1)
      | Completed p =>
          if (returncode p =? 0)%Z then run_install rest true s1
          else
            let cmd_name := hd "" cmd in
            if String.eqb cmd_name "apt-get" || String.eqb cmd_name "yum"
            then run_install rest success s1
            else (Returned false, s1)
      end
  end.

(** [install_nftables()] *)
Definition install_nftables (s : sys) : outcome bool * sys :=
  let '(installed, s1) := check_nftables_installed s in
  if installed then (Returned true, s1)
  else
    let '(d, s2) := detect_linux_distro s1 in
    match d with
    | Escaped => (Escaped, s2)
    | Returned distro =>
        if negb is_root then (Returned false, s2)
        else
          match install_commands distro with
          | None => (Returned false, s2)
          | Some cmds =>
              let '(o, s3) := run_install cmds false s2 in
              match o with
              | Escaped => (Escaped, s3)
              | Returned success =>
                  if success then
                    let '(installed2, s4) := check_nftables_installed s3 in
                    if installed2 then (Returned true, s4)
                    else (Returned false, s4)
                  else (Returned false, s3)
              end
          end
    end.

(** A call that only asks where a tool is. *)
Definition is_probe (ev : event) : bool :=
  match ev with
  | EvRun ("which" :: _) => true
  | _ => false
  end.
End Installer.

Arguments run_logged {World} _ _ _.
Arguments check_nftables_installed {World} _ _.
Arguments probe {World} _ _ _.
Arguments detect_linux_distro {World} _ _ _.
Arguments run_install {World} _ _ _ _.
Arguments install_nftables {World} _ _ _ _.

End Install.

(** * Properties *)

(** ** Strings and decimal numbers *)
Module PyFacts.
Import Py.

Example strip_example : strip "  8080 " = "8080".
Proof. reflexivity. Qed.

Example split_on_example : split_on "-" "8080-8090" = ["8080"; "8090"].
Proof. reflexivity. Qed.

Example split_ws_example :
  split_ws "nft add  rule ip" = ["nft"; "add"; "rule"; "ip"].
Proof. reflexivity. Qed.

Example int_of_str_example : int_of_str " 1_000 " = Ok 1000%Z.
Proof. reflexivity. Qed.

Example int_of_str_bad : int_of_str "8080:" = Raise ValueError.
Proof. reflexivity. Qed.

(** [int()] does not skip the separators that [str.strip()] removes. *)
Example int_of_str_separator :
  int_of_str (String (ascii_of_nat 28) "22") = Raise ValueError
  /\ int_of_str (strip (String (ascii_of_nat 28) "22")) = Ok 22%Z.
Proof. split; reflexivity. Qed.

Example repr_str_example :
  repr_str "it's" = String dquote ("it's" ++ String dquote "").
Proof. reflexivity. Qed.

Lemma append_assoc (a b c : string) : (a ++ b) ++ c = a ++ (b ++ c).
Proof. induction a as [|x a IH]; simpl; [reflexivity | now rewrite IH]. Qed.

Lemma append_nil_r (a : string) : a ++ "" = a.
Proof. induction a as [|x a IH]; simpl; [reflexivity | now rewrite IH]. Qed.

Lemma prefix_append (n b : string) : String.prefix n (n ++ b) = true.
Proof.
  induction n as [|x n IH]; simpl.
  - now destruct b.
  - destruct (ascii_dec x x) as [_|ne]; [exact IH | now elim ne].
Qed.

Lemma contains_prefix (n s : string) :
  String.prefix n s = true -> contains n s = true.
Proof. destruct s; simpl; intros ->; reflexivity. Qed.

Lemma contains_here (n b : string) : contains n (n ++ b) = true.
Proof. apply contains_prefix, prefix_append. Qed.

Lemma contains_append (n a b : string) : contains n (a ++ n ++ b) = true.
Proof.
  induction a as [|x a IH]; simpl.
  - apply contains_here.
  - rewrite IH. apply orb_true_r.
Qed.

Lemma all_chars_append p a b :
  all_chars p (a ++ b) = all_chars p a && all_chars p b.
Proof.
  induction a as [|x a IH]; simpl; [reflexivity|].
  now rewrite IH, andb_assoc.
Qed.

Lemma all_chars_weaken (p q : ascii -> bool) s :
  (forall c, p c = true -> q c = true) ->
  all_chars p s = true -> all_chars q s = true.
Proof.
  intros pq. induction s as [|c r IH]; simpl; [reflexivity|].
  intros H. apply andb_true_iff in H as [Hc Hr].
  now rewrite (pq _ Hc), IH.
Qed.

Lemma digit_not_space c : is_digit c = true -> negb (is_space c) = true.
Proof.
  destruct c as [[] [] [] [] [] [] [] []]; vm_compute; congruence.
Qed.

Lemma digit_not_dash c :
  is_digit c = true -> negb (Ascii.eqb c "-") = true.
Proof.
  destruct c as [[] [] [] [] [] [] [] []]; vm_compute; congruence.
Qed.

Lemma digit_not_underscore c : is_digit c = true -> Ascii.eqb c "_" = false.
Proof.
  destruct c as [[] [] [] [] [] [] [] []]; vm_compute; congruence.
Qed.

(** Stripping leaves a string without whitespace alone. *)
Lemma lstrip_id s :
  all_chars (fun c => negb (is_space c)) s = true -> lstrip s = s.
Proof.
  destruct s as [|c r]; simpl; [reflexivity|].
  intros H. apply andb_true_iff in H as [Hc _].
  apply negb_true_iff in Hc. now rewrite Hc.
Qed.

Lemma rstrip_id s :
  all_chars (fun c => negb (is_space c)) s = true -> rstrip s = s.
Proof.
  induction s as [|c r IH]; simpl; [reflexivity|].
  intros H. apply andb_true_iff in H as [Hc Hr].
  apply negb_true_iff in Hc. rewrite (IH Hr), Hc.
  now destruct r.
Qed.

Lemma strip_id s :
  all_chars (fun c => negb (is_space c)) s = true -> strip s = s.
Proof.
  intros H. unfold strip. rewrite (lstrip_id _ H). now apply rstrip_id.
Qed.

(** Splitting on a separator that occurs once, between [a] and [b]. *)
Lemma split_on_absent sep s :
  all_chars (fun c => negb (Ascii.eqb c sep)) s = true ->
  split_on sep s = [s].
Proof.
  induction s as [|c r IH]; simpl; [reflexivity|].
  intros H. apply andb_true_iff in H as [Hc Hr].
  apply negb_true_iff in Hc. now rewrite Hc, (IH Hr).
Qed.

Lemma split_on_once sep a b :
  all_chars (fun c => negb (Ascii.eqb c sep)) a = true ->
  all_chars (fun c => negb (Ascii.eqb c sep)) b = true ->
  split_on sep (a ++ String sep b) = [a; b].
Proof.
  intros Ha Hb. induction a as [|c r IH]; simpl.
  - now rewrite Ascii.eqb_refl, (split_on_absent _ _ Hb).
  - simpl in Ha. apply andb_true_iff in Ha as [Hc Hr].
    apply negb_true_iff in Hc. now rewrite Hc, (IH Hr).
Qed.

(** The decimal rendering of a number is made of digits. *)
Lemma uint_digits d : all_chars is_digit (NilEmpty.string_of_uint d) = true.
Proof. induction d; simpl; auto. Qed.

Lemma str_of_N_digits n : all_chars is_digit (str_of_N n) = true.
Proof.
  unfold str_of_N, NilZero.string_of_uint.
  destruct (N.to_uint n); try reflexivity; apply (uint_digits (_ _)).
Qed.

Lemma N_to_uint_nonnil n : N.to_uint n <> Decimal.Nil.
Proof.
  destruct n as [|p]; simpl; [discriminate|].
  apply DecimalPos.Unsigned.to_uint_nonnil.
Qed.

Lemma str_of_N_nonempty n : str_of_N n <> "".
Proof.
  unfold str_of_N, NilZero.string_of_uint.
  destruct (N.to_uint n); simpl; discriminate.
Qed.

Lemma drop_underscores_digits s :
  all_chars is_digit s = true -> drop_underscores true s = Some s.
Proof.
  induction s as [|c r IH]; simpl; [reflexivity|].
  intros H. apply andb_true_iff in H as [Hc Hr].
  now rewrite Hc, (IH Hr).
Qed.

Lemma drop_underscores_start s :
  all_chars is_digit s = true -> s <> "" -> drop_underscores false s = Some s.
Proof.
  destruct s as [|c r]; simpl; [congruence|].
  intros H _. apply andb_true_iff in H as [Hc Hr].
  now rewrite Hc, (drop_underscores_digits _ Hr).
Qed.

Lemma parse_unsigned_str n :
  parse_unsigned (str_of_N n) =
  if too_many_digits (str_of_N n) then None else Some n.
Proof.
  unfold parse_unsigned.
  rewrite (drop_underscores_start _ (str_of_N_digits n) (str_of_N_nonempty n)).
  destruct (too_many_digits (str_of_N n)); [reflexivity|].
  unfold str_of_N. rewrite (NilZero.usu _ (N_to_uint_nonnil n)). simpl.
  now rewrite DecimalN.Unsigned.of_to.
Qed.

Lemma digit_not_int_space c :
  is_digit c = true -> negb (is_int_space c) = true.
Proof.
  destruct c as [[] [] [] [] [] [] [] []]; vm_compute; congruence.
Qed.

Lemma ltrim_id p s :
  all_chars (fun c => negb (p c)) s = true -> ltrim p s = s.
Proof.
  destruct s as [|c r]; simpl; [reflexivity|].
  intros H. apply andb_true_iff in H as [Hc _].
  apply negb_true_iff in Hc. now rewrite Hc.
Qed.

Lemma rtrim_id p s :
  all_chars (fun c => negb (p c)) s = true -> rtrim p s = s.
Proof.
  induction s as [|c r IH]; simpl; [reflexivity|].
  intros H. apply andb_true_iff in H as [Hc Hr].
  apply negb_true_iff in Hc. rewrite (IH Hr), Hc.
  now destruct r.
Qed.

(** [int(s)] on a string of digits. *)
Lemma int_of_str_digits s :
  all_chars is_digit s = true -> s <> "" ->
  int_of_str s = match parse_unsigned s with
                 | Some n => Ok (Z.of_N n)
                 | None => Raise ValueError
                 end.
Proof.
  intros Hd Hne. unfold int_of_str.
  pose proof (all_chars_weaken _ _ s digit_not_int_space Hd) as Hs.
  rewrite (ltrim_id _ s Hs), (rtrim_id _ s Hs).
  destruct s as [|c r]; [congruence|].
  simpl in Hd. apply andb_true_iff in Hd as [Hc _].
  destruct c as [[] [] [] [] [] [] [] []]; try discriminate Hc;
    now destruct (parse_unsigned _).
Qed.

(** [int(str(n)) == n] up to the digit limit, [ValueError] beyond it. *)
Lemma int_of_str_of_N n :
  int_of_str (str_of_N n) =
  if too_many_digits (str_of_N n) then Raise ValueError else Ok (Z.of_N n).
Proof.
  rewrite (int_of_str_digits _ (str_of_N_digits n) (str_of_N_nonempty n)).
  rewrite parse_unsigned_str. now destruct (too_many_digits _).
Qed.

Lemma range_from_In fuel :
  forall k n, (k <= n)%N -> (n < k + N.of_nat fuel)%N ->
              In n (range_from fuel k).
Proof.
  induction fuel as [|f IH]; intros k n Hk Hn.
  - simpl in Hn. lia.
  - rewrite Nat2N.inj_succ in Hn. cbn [range_from].
    destruct (N.eq_dec k n) as [->|ne]; [now left|].
    right. apply IH; lia.
Qed.

(** A port number is far below the digit limit. *)
Lemma port_number_is_short n :
  (n <= 65535)%N -> too_many_digits (str_of_N n) = false.
Proof.
  intros H.
  assert (A : forallb (fun k => negb (too_many_digits (str_of_N k)))
                (range_from (N.to_nat 65536) 0) = true)
    by (vm_compute; reflexivity).
  rewrite forallb_forall in A. apply negb_true_iff, A.
  apply range_from_In; [lia|]. rewrite N2Nat.id. lia.
Qed.

(** Whatever [int()] refuses for its length is no port number. *)
Lemma long_number_is_no_port n :
  too_many_digits (str_of_N n) = true -> (65535 < n)%N.
Proof.
  intros H. destruct (N.le_gt_cases n 65535) as [Hle|Hgt]; [|lia].
  rewrite (port_number_is_short n Hle) in H. discriminate.
Qed.

Lemma str_of_Z_of_N n : str_of_Z (Z.of_N n) = str_of_N n.
Proof. destruct n; reflexivity. Qed.

Lemma foldM_app {A S : Type} (f : S -> A -> res S) (a b : list A) (st : S) :
  foldM f (a ++ b) st = bind (foldM f a st) (foldM f b).
Proof.
  revert st. induction a as [|x a IH]; intros st; simpl; [reflexivity|].
  destruct (f st x); simpl; [apply IH | reflexivity].
Qed.



Lemma foldM_invariant {A S : Type} (f : S -> A -> res S) (P : S -> Prop) :
  (forall st x st', f st x = Ok st' -> P st -> P st') ->
  forall l st st', foldM f l st = Ok st' -> P st -> P st'.
Proof.
  intros Hf. induction l as [|x l IH]; intros st st' H HP; simpl in H.
  - now inversion H; subst.
  - destruct (f st x) as [st1|] eqn:E; [|discriminate H].
    exact (IH _ _ H (Hf _ _ _ E HP)).
Qed.

End PyFacts.

(** ** Synthesis *)
Module SynthFacts.
Import Py Json Synth PyFacts.

Ltac str_norm := repeat first [rewrite append_assoc | progress (cbn [append])].

Lemma no_dash n :
  all_chars (fun c => negb (Ascii.eqb c "-")) (str_of_N n) = true.
Proof. exact (all_chars_weaken _ _ _ digit_not_dash (str_of_N_digits n)). Qed.

Lemma no_space n :
  all_chars (fun c => negb (is_space c)) (str_of_N n) = true.
Proof. exact (all_chars_weaken _ _ _ digit_not_space (str_of_N_digits n)). Qed.

(** The port qualifier of a dash-form range: [int()] is applied to the start
    first, then to the end. *)
Lemma adhoc_port_part_range protocol s e :
  adhoc_port_part protocol (range_port s e) =
  if too_many_digits (str_of_N s) then Raise ValueError
  else if too_many_digits (str_of_N e) then Raise ValueError
  else if (e <? s)%N then Ok None
  else Ok (Some ((if String.eqb protocol "tcp" then "tcp" else "udp")
                 ++ " dport " ++ str_of_N s ++ ":" ++ str_of_N e)).
Proof.
  unfold adhoc_port_part, range_port. cbn [str].
  rewrite (contains_append "-" (str_of_N s) (str_of_N e)).
  change (str_of_N s ++ "-" ++ str_of_N e)
    with (str_of_N s ++ String "-" (str_of_N e)).
  rewrite (split_on_once _ _ _ (no_dash s) (no_dash e)).
  rewrite !(strip_id _ (no_space _)), !int_of_str_of_N.
  destruct (too_many_digits (str_of_N s)); [reflexivity|].
  destruct (too_many_digits (str_of_N e)); [reflexivity|]. cbn [bind].
  rewrite !str_of_Z_of_N.
  replace (Z.of_N e <? Z.of_N s)%Z with (e <? s)%N.
  2:{ destruct (N.ltb_spec e s), (Z.ltb_spec (Z.of_N e) (Z.of_N s)); auto; lia. }
  destruct (e <? s)%N; [reflexivity|].
  now destruct (String.eqb protocol "tcp").
Qed.

(** The directive of an ascending range: the qualifier is [tcp] for the
    protocol tcp and [udp] for every other protocol. *)
Lemma generate_range action protocol s e ip :
  is_icmp protocol = false -> (s <= e)%N ->
  too_many_digits (str_of_N s) = false ->
  too_many_digits (str_of_N e) = false ->
  generate_nft_command action protocol (range_port s e) false ip =
  Ok (Some [add_rule_prefix
            ++ match address_given ip with
               | Some a => "ip daddr " ++ a ++ " "
               | None => ""
               end
            ++ (if String.eqb protocol "tcp" then "tcp" else "udp")
            ++ " dport " ++ str_of_N s ++ ":" ++ str_of_N e ++ " " ++ action]).
Proof.
  intros Hp Hse Hs He. unfold generate_nft_command. fold (is_icmp protocol).
  rewrite Hp, adhoc_port_part_range, Hs, He.
  apply N.ltb_ge in Hse. rewrite Hse. cbn [bind].
  destruct (address_given ip); str_norm; reflexivity.
Qed.

(** A bound of more than 4300 digits is not converted: the generator
    raises. *)
Lemma generate_range_beyond_limit :
  generate_nft_command "accept" "tcp"
    (JStr (times 4301 "9" ++ "-80")) false None
  = Raise ValueError.
Proof. vm_compute. reflexivity. Qed.

(** What the check answers, family by family. *)
Lemma no_port_protocol_always_rejected protocol port :
  in_strings (lower protocol) protocols_without_port = true ->
  fst (validate_protocol_port protocol port) = false.
Proof. intros H. unfold validate_protocol_port. now rewrite H. Qed.

Lemma port_protocol_check protocol :
  in_strings (lower protocol) protocols_without_port = false ->
  fst (validate_protocol_port protocol JNull) = false
  /\ (forall l, (1 < List.length l)%nat ->
       fst (validate_protocol_port protocol (JList l)) = false)
  /\ (forall s, fst (validate_protocol_port protocol (JStr s)) = true).
Proof.
  intros H. unfold validate_protocol_port. rewrite H.
  split; [reflexivity | split; [|reflexivity]].
  intros l Hl. apply Nat.ltb_lt in Hl. now rewrite Hl.
Qed.

(** With the bare string ['53'] the two-directive branch is taken. *)
Lemma dns_branch_on_bare_port action :
  generate_nft_command action "both" (JStr "53") true None =
  Ok (Some ["nft add rule ip filter input tcp dport 53 " ++ action;
            "nft add rule ip filter input udp dport 53 " ++ action]).
Proof. reflexivity. Qed.

(** C1.  For every action, the dns preset as the menu hands it over
    (protocol ['both'], ports [['53']]) yields one directive only, the udp
    one: the list [['53']] is not the string ['53'], so the two-directive
    branch is skipped and the per-port loop picks udp for a protocol that is
    not tcp. *)
Theorem dns_preset_emits_udp_only (action : string) :
  generate_for_preset action preset_dns =
  Ok (Some ["nft add rule ip filter input udp dport 53 " ++ action]).
Proof. reflexivity. Qed.

(** C3, as the code has it.  For a protocol other than icmp and ipv6-icmp
    and a port without a dash, the directive carries [ip daddr <addr>]
    ahead of the port qualifier exactly when an address is supplied and is
    not the empty string; the default [0.0.0.0/0] is an address like any
    other. *)
Theorem address_clause_iff_address_given
    (action protocol : string) (port : json) (ip_address : option string) :
  is_icmp protocol = false ->
  contains "-" (str port) = false ->
  (forall a, ip_address = Some a -> a <> "" ->
     generate_nft_command action protocol port false ip_address =
     Ok (Some [add_rule_prefix ++ "ip daddr " ++ a ++ " " ++ protocol
               ++ " dport " ++ str port ++ " " ++ action]))
  /\ (ip_address = None \/ ip_address = Some "" ->
      generate_nft_command action protocol port false ip_address =
      Ok (Some [add_rule_prefix ++ protocol ++ " dport " ++ str port ++ " "
                ++ action])).
Proof.
  intros Hp Hd. unfold generate_nft_command, adhoc_port_part.
  rewrite Hp, Hd. cbn [bind]. split.
  - intros a -> Ha. cbn [address_given].
    destruct (String.eqb_spec a ""); [congruence|]. str_norm. reflexivity.
  - intros [-> | ->]; cbn [address_given String.eqb]; str_norm; reflexivity.
Qed.

Lemma address_clause_iff_address_given_witness :
  generate_nft_command "accept" "tcp" (JStr "443") false (Some "192.168.1.100")
  = Ok (Some ["nft add rule ip filter input ip daddr 192.168.1.100 tcp dport 443 accept"]).
Proof.
  exact (proj1 (address_clause_iff_address_given "accept" "tcp" (JStr "443")
                  (Some "192.168.1.100") eq_refl eq_refl)
           "192.168.1.100" eq_refl ltac:(discriminate)).
Defined.

(** C3, as stated, fails on the default address: it is rendered as a
    destination-address clause. *)
Lemma default_address_is_rendered :
  generate_nft_command "accept" "tcp" (JStr "80") false (Some "0.0.0.0/0")
  = Ok (Some ["nft add rule ip filter input ip daddr 0.0.0.0/0 tcp dport 80 accept"])
  /\ contains "ip daddr 0.0.0.0/0"
       "nft add rule ip filter input ip daddr 0.0.0.0/0 tcp dport 80 accept"
     = true.
Proof. split; reflexivity. Qed.

(** C4.  The range 8080-8090 for the protocol sctp is emitted with the
    qualifier [udp dport 8080:8090], not [sctp dport 8080:8090]. *)
Theorem sctp_range_is_emitted_as_udp :
  generate_nft_command "accept" "sctp" (JStr "8080-8090") false None =
  Ok (Some ["nft add rule ip filter input udp dport 8080:8090 accept"]).
Proof. reflexivity. Qed.

(** C5.  The check rejects icmp when no port is supplied. *)
Theorem icmp_without_port_is_rejected :
  validate_protocol_port "icmp" JNull = (false, "协议 'icmp' 不需要端口参数").
Proof. reflexivity. Qed.

(** C9, as the code has it.  For a protocol other than icmp and ipv6-icmp,
    a dash-form range whose start is greater than its end, each bound
    written with at most 4300 digits (the most [int()] converts), makes the
    generator return [None]; [main], which only calls it for a protocol the
    check accepted, reports the invalid range instead of executing. *)
Theorem descending_range_returns_none
    (action protocol : string) (s e : N) :
  (e < s)%N ->
  too_many_digits (str_of_N s) = false ->
  too_many_digits (str_of_N e) = false ->
  (is_icmp protocol = false ->
   forall ip_address,
     generate_nft_command action protocol (range_port s e) false ip_address
     = Ok None)
  /\ (in_strings (lower protocol) protocols_without_port = false ->
      forall ip_address,
        main_create_rule action protocol (range_port s e) ip_address
        = InvalidRange).
Proof.
  intros Hse Hs He. apply N.ltb_lt in Hse.
  assert (Hgen : is_icmp protocol = false -> forall ip,
             generate_nft_command action protocol (range_port s e) false ip
             = Ok None).
  { intros Hp ip. unfold generate_nft_command.
    now rewrite Hp, adhoc_port_part_range, Hs, He, Hse. }
  split; [exact Hgen|].
  intros Hp ip. unfold main_create_rule, validate_protocol_port.
  rewrite Hp. cbn [range_port negb].
  fold (range_port s e). rewrite Hgen; [reflexivity|].
  unfold is_icmp. unfold in_strings, protocols_without_port in Hp.
  cbn [existsb] in Hp.
  repeat (apply orb_false_iff in Hp as [? Hp]).
  apply orb_false_iff. split; assumption.
Qed.

Lemma descending_range_returns_none_witness :
  generate_nft_command "accept" "tcp" (JStr "8090-8080") false None = Ok None
  /\ main_create_rule "accept" "tcp" (JStr "8090-8080") "0.0.0.0/0"
     = InvalidRange.
Proof.
  destruct (descending_range_returns_none "accept" "tcp" 8090 8080
              eq_refl eq_refl eq_refl)
    as [Hgen Hmain].
  split; [exact (Hgen eq_refl None) | exact (Hmain eq_refl "0.0.0.0/0")].
Defined.

(** C9, as stated, fails for icmp: the port is not looked at and one
    directive is returned. *)
Lemma icmp_ignores_descending_range :
  generate_nft_command "accept" "icmp" (JStr "90-80") false None
  = Ok (Some ["nft add rule ip filter input icmp accept"]).
Proof. reflexivity. Qed.

End SynthFacts.

(** ** The directive loop *)
Module OrchestratorFacts.
Import Py Orchestrator.

Section LoopFacts.
Context {World : Type}.
Variable run : list string -> World -> run_result * World.
Variable init : World -> bool * World.

(** One directive costs one of the two call sequences and is counted
    once, as a success or as a failure. *)
Lemma run_directive_accounts (st : loop_state World) (cmd : string) :
  let st' := run_directive run init st cmd in
  (trace st' = trace st ++ single_attempt cmd
   \/ trace st' = trace st ++ remediated_attempt cmd)%list
  /\ (success_count st' + List.length (failed_commands st')
      = S (success_count st + List.length (failed_commands st)))%nat.
Proof.
  unfold run_directive, single_attempt, remediated_attempt.
  destruct (run (split_ws cmd) (world st)) as [[p|] w1]; cbn.
  2:{ split; [now left | rewrite length_app; cbn; lia]. }
  destruct (returncode p =? 0)%Z; cbn.
  { split; [now left | lia]. }
  destruct (missing_resource (error_text p)); cbn.
  2:{ split; [now left | rewrite length_app; cbn; lia]. }
  destruct (init w1) as [b w2].
  destruct (run (split_ws cmd) w2) as [[p2|] w3]; cbn.
  2:{ split; [now right | rewrite length_app; cbn; lia]. }
  destruct (returncode p2 =? 0)%Z; cbn;
    (split; [now right | rewrite ?length_app; cbn; lia]).
Qed.

Lemma fold_accounts (cmds : list string) : forall st : loop_state World,
  let st' := fold_left (run_directive run init) cmds st in
  (success_count st' + List.length (failed_commands st')
   = success_count st + List.length (failed_commands st) + List.length cmds)%nat
  /\ exists segs,
      trace st' = (trace st ++ concat segs)%list
      /\ Forall2 (fun cmd seg => seg = single_attempt cmd
                                 \/ seg = remediated_attempt cmd) cmds segs.
Proof.
  induction cmds as [|cmd cmds IH]; intros st; cbn [fold_left].
  - split; [cbn; lia|]. exists []. cbn. now rewrite app_nil_r.
  - destruct (run_directive_accounts st cmd) as [Htr Hcount].
    destruct (IH (run_directive run init st cmd)) as [Hc [segs [Ht Hs]]].
    cbn zeta in *. split; [cbn [List.length]; lia|].
    destruct Htr as [Htr|Htr].
    + exists (single_attempt cmd :: segs). split; [|constructor; auto].
      rewrite Ht, Htr. cbn [concat]. now rewrite <- app_assoc.
    + exists (remediated_attempt cmd :: segs). split; [|constructor; auto].
      rewrite Ht, Htr. cbn [concat]. now rewrite <- app_assoc.
Qed.
End LoopFacts.

(** C6.  A directive whose first run fails with a text of the
    missing-resource class costs exactly one initialisation and one more run
    of the same directive, and counts as succeeded when that run succeeds; a
    failure of any other class, or of the retry, is recorded as failed with
    no further run; a batch runs each of its directives, in order, whatever
    the earlier ones did. *)
Theorem remediation_once_per_directive
    (World : Type) (run : list string -> World -> run_result * World)
    (init : World -> bool * World) :
  (forall (st : loop_state World) cmd p w1,
      run (split_ws cmd) (world st) = (Completed p, w1) ->
      returncode p <> 0%Z ->
      missing_resource (error_text p) = true ->
      let w2 := snd (init w1) in
      let r2 := fst (run (split_ws cmd) w2) in
      let st' := run_directive run init st cmd in
      trace st' = (trace st ++ [EvRun (split_ws cmd); EvInit;
                                EvRun (split_ws cmd)])%list
      /\ world st' = snd (run (split_ws cmd) w2)
      /\ (succeeded r2 = true ->
          success_count st' = S (success_count st)
          /\ failed_commands st' = failed_commands st)
      /\ (succeeded r2 = false ->
          success_count st' = success_count st
          /\ failed_commands st' = (failed_commands st ++ [cmd])%list))
  /\ (forall (st : loop_state World) cmd r1 w1,
      run (split_ws cmd) (world st) = (r1, w1) ->
      succeeded r1 = false ->
      (forall p, r1 = Completed p -> missing_resource (error_text p) = false) ->
      let st' := run_directive run init st cmd in
      trace st' = (trace st ++ [EvRun (split_ws cmd)])%list
      /\ world st' = w1
      /\ success_count st' = success_count st
      /\ failed_commands st' = (failed_commands st ++ [cmd])%list)
  /\ (forall cmds w,
      let st := run_commands run init cmds w in
      (success_count st + List.length (failed_commands st)
       = List.length cmds)%nat
      /\ exists segs,
          trace st = concat segs
          /\ Forall2 (fun cmd seg => seg = single_attempt cmd
                                     \/ seg = remediated_attempt cmd)
               cmds segs).
Proof.
  split; [|split].
  - intros st cmd p w1 Hrun Hrc Hmiss. cbn zeta. unfold run_directive.
    rewrite Hrun. apply Z.eqb_neq in Hrc. rewrite Hrc, Hmiss.
    destruct (init w1) as [b w2]. cbn [snd].
    destruct (run (split_ws cmd) w2) as [[p2|] w3]; cbn [fst snd succeeded].
    + destruct (returncode p2 =? 0)%Z; cbn; repeat split; congruence.
    + cbn; repeat split; congruence.
  - intros st cmd r1 w1 Hrun Hfail Hclass. cbn zeta. unfold run_directive.
    rewrite Hrun. destruct r1 as [p|]; [|cbn; repeat split].
    cbn [succeeded] in Hfail. rewrite Hfail, (Hclass p eq_refl).
    cbn; repeat split.
  - intros cmds w. cbn zeta. unfold run_commands.
    destruct (fold_accounts run init cmds (start w)) as [Hc [segs [Ht Hs]]].
    split; [exact Hc|]. exists segs. split; [exact Ht | exact Hs].
Qed.

Lemma remediation_once_per_directive_witness :
  let cmd := "nft add rule ip filter input tcp dport 22 accept" in
  let st' := run_directive table_missing_run table_init (start false) cmd in
  trace st' = [EvRun (split_ws cmd); EvInit; EvRun (split_ws cmd)]
  /\ success_count st' = 1%nat
  /\ failed_commands st' = [].
Proof.
  cbn zeta.
  destruct (proj1 (remediation_once_per_directive bool table_missing_run table_init)
              (start false) "nft add rule ip filter input tcp dport 22 accept"
              {| returncode := 1; stdout := "";
                 stderr := "Error: Could not process rule: No such file or directory" |}
              false eq_refl ltac:(discriminate) eq_refl)
    as [Ht [_ [Hs _]]].
  destruct (Hs eq_refl) as [Hc Hf].
  split; [exact Ht | split; [exact Hc | exact Hf]].
Defined.

End OrchestratorFacts.

(** ** The interpreter *)
Module InterpFacts.
Import Py Json Interp PyFacts.

Ltac raised := left; intros ? ? H; discriminate H.
Ltac next_get :=
  match goal with
  | |- port_effect (fun st => bind ?m _) => destruct m; cbn [bind]; [| raised]
  end.
Ltac stable :=
  left; intros ? ? H;
  repeat match type of H with
         | context [if ?b then _ else _] => destruct b
         end;
  inversion H; reflexivity.

Lemma descriptor_nonempty negate x : neg_of negate ++ "端口 " ++ x <> "".
Proof. unfold neg_of. destruct (truthy negate); discriminate. Qed.

Lemma port_sets_intro (g : fmt -> res fmt) d :
  (forall st, g st = Ok (set_port st d)) -> d <> "" -> port_sets g d.
Proof. now split. Qed.

Ltac sets_port :=
  right; eexists; eapply port_sets_intro;
  [ intros; reflexivity | first [apply descriptor_nonempty | discriminate] ].

Lemma match_node_effect e : port_effect (fun st => match_node st e).
Proof.
  unfold match_node. repeat next_get.
  destruct (is_port_field _); [sets_port | stable].
Qed.

Lemma relational_node_effect e : port_effect (fun st => relational_node st e).
Proof.
  unfold relational_node. repeat next_get.
  destruct (is_port_field _); [sets_port | stable].
Qed.

Lemma cmp_node_effect e : port_effect (fun st => cmp_node st e).
Proof.
  unfold cmp_node. repeat next_get.
  destruct (is_port_field _); [sets_port | stable].
Qed.

Lemma payload_node_effect e : port_effect (fun st => payload_node st e).
Proof.
  unfold payload_node. repeat next_get.
  destruct (is_port_field _); [sets_port | stable].
Qed.

Lemma meta_node_stable e : port_stable (fun st => meta_node st e).
Proof.
  intros st st'. unfold meta_node.
  repeat match goal with
         | |- bind ?m _ = _ -> _ => destruct m; cbn [bind]; [| discriminate]
         end.
  repeat match goal with
         | |- context [match ?x with _ => _ end] => destruct x; cbn [bind]
         end;
    intros H;
    repeat match type of H with
           | context [bind ?m _] => destruct m; cbn [bind] in H
           end;
    try discriminate H; inversion H; reflexivity.
Qed.

Ltac stable_get :=
  match goal with
  | |- port_stable (fun st => bind ?m _) =>
      destruct m; cbn [bind]; [| intros ? ? H; discriminate H]
  end.
Ltac stable_end :=
  intros ? ? H;
  repeat match type of H with
         | context [if ?b then _ else _] => destruct b
         end;
  inversion H; reflexivity.

Lemma ct_node_stable e : port_stable (fun st => ct_node st e).
Proof. unfold ct_node. repeat stable_get. stable_end. Qed.

Lemma counter_node_stable e : port_stable (fun st => counter_node st e).
Proof. unfold counter_node. repeat stable_get. stable_end. Qed.

Lemma jump_node_stable e : port_stable (fun st => jump_node st e).
Proof. unfold jump_node. repeat stable_get. stable_end. Qed.

Lemma xt_node_stable e : port_stable (fun st => xt_node st e).
Proof. unfold xt_node. repeat stable_get. stable_end. Qed.

Lemma meta_node_effect e : port_effect (fun st => meta_node st e).
Proof. left. apply meta_node_stable. Qed.

Lemma ct_node_effect e : port_effect (fun st => ct_node st e).
Proof. left. apply ct_node_stable. Qed.

Lemma counter_node_effect e : port_effect (fun st => counter_node st e).
Proof. left. apply counter_node_stable. Qed.

Lemma jump_node_effect e : port_effect (fun st => jump_node st e).
Proof. left. apply jump_node_stable. Qed.

Lemma xt_node_effect e : port_effect (fun st => xt_node st e).
Proof. left. apply xt_node_stable. Qed.

Lemma step_effect e : port_effect (fun st => step st e).
Proof.
  unfold step. destruct (negb (truthy e)); [stable|].
  next_get.
  repeat match goal with
         | |- port_effect (fun st => if ?b then _ else _) =>
             destruct b;
             [ first [ apply match_node_effect | apply relational_node_effect
                     | apply cmp_node_effect | apply payload_node_effect
                     | apply meta_node_effect | apply ct_node_effect
                     | apply counter_node_effect | apply jump_node_effect
                     | apply xt_node_effect | stable ] | ]
         end.
  stable.
Qed.

Lemma node_port_sets e d :
  port_sets (fun st => step st e) d -> node_port e = Some d.
Proof.
  intros [Hne Hs]. unfold node_port. rewrite Hs. cbn.
  destruct (String.eqb_spec d ""); congruence.
Qed.

Lemma node_port_stable e :
  port_stable (fun st => step st e) -> node_port e = None.
Proof.
  intros Hs. unfold node_port. destruct (step fmt0 e) as [st|] eqn:E; [|reflexivity].
  rewrite (Hs _ _ E). reflexivity.
Qed.

(** The port descriptor after one node. *)
Lemma step_port_info st e st' :
  step st e = Ok st' ->
  port_info st' = match node_port e with
                  | Some d => d
                  | None => port_info st
                  end.
Proof.
  intros H. destruct (step_effect e) as [Hs | [d Hd]].
  - rewrite (node_port_stable _ Hs). exact (Hs _ _ H).
  - rewrite (node_port_sets _ _ Hd). destruct Hd as [_ Hd].
    rewrite Hd in H. now inversion H.
Qed.

Lemma last_cons_default (d x : string) l : last (x :: l) d = last l x.
Proof.
  revert d x. induction l as [|y l IH]; intros d x; [reflexivity|].
  change (last (y :: l) d = last (y :: l) x). now rewrite !IH.
Qed.

(** The port descriptor after the whole list: the last one set. *)
Lemma run_port_info l : forall st st',
  foldM step l st = Ok st' ->
  port_info st' = last (port_descriptors l) (port_info st).
Proof.
  induction l as [|e l IH]; intros st st' H; simpl in H.
  - now inversion H.
  - destruct (step st e) as [st1|] eqn:E; [|discriminate H]. cbn [bind] in H.
    rewrite (IH _ _ H), (step_port_info _ _ _ E).
    unfold port_descriptors. cbn [flat_map]. fold (port_descriptors l).
    destruct (node_port e); cbn [app]; [|reflexivity].
    now rewrite last_cons_default.
Qed.

Lemma node_port_nonempty e d : node_port e = Some d -> d <> "".
Proof.
  unfold node_port. destruct (step fmt0 e); [|discriminate].
  destruct (String.eqb_spec (port_info a) ""); [discriminate|].
  intros H. now inversion H; subst.
Qed.

Lemma port_descriptors_nonempty l :
  Forall (fun x => x <> "") (port_descriptors l).
Proof.
  unfold port_descriptors. induction l as [|e l IH]; cbn [flat_map]; [constructor|].
  destruct (node_port e) eqn:E; cbn [app]; [|exact IH].
  constructor; [|exact IH]. eapply node_port_nonempty; eauto.
Qed.

Lemma last_descriptor_nonempty l d :
  port_descriptors l <> [] -> last (port_descriptors l) d <> "".
Proof.
  pose proof (port_descriptors_nonempty l) as Hall.
  revert d. induction Hall as [|x xs Hx Hxs IH]; intros d Hne; [congruence|].
  rewrite last_cons_default. destruct xs; [exact Hx|]. apply IH. discriminate.
Qed.

(** The formatted line opens with the port descriptor when there is one. *)
Lemma assemble_port_first st :
  port_info st <> "" -> exists rest, assemble st = port_info st ++ rest.
Proof.
  intros Hp. unfold assemble, result_parts.
  destruct (String.eqb_spec (port_info st) ""); [congruence|].
  cbn [app]. unfold join.
  destruct (parts st) as [|p ps] eqn:Eparts, (String.eqb (action st) "");
    cbn [app]; cbn -[append]; eauto.
  exists "". now rewrite append_nil_r.
Qed.

(** The formatted line of a list that sets the port opens with the last
    descriptor set. *)
Lemma format_opens_with_last_port l out :
  format_rule_expression (JList l) = Ok out ->
  port_descriptors l <> [] ->
  exists rest, out = last (port_descriptors l) "" ++ rest.
Proof.
  intros Hf Hne. unfold format_rule_expression in Hf.
  destruct l as [|e l]; [now elim Hne|].
  cbn [truthy negb iter bind] in Hf.
  destruct (foldM step (e :: l) fmt0) as [st|] eqn:E; [|discriminate Hf].
  cbn [bind] in Hf. inversion Hf; subst out; clear Hf.
  pose proof (run_port_info _ _ _ E) as Hp. cbn [port_info fmt0] in Hp.
  rewrite <- Hp. apply assemble_port_first. rewrite Hp.
  now apply last_descriptor_nonempty.
Qed.

(** *** Port nodes, read off the node *)

Example port_text_match :
  is_port_node (payload_match "tcp" "dport" (JInt 22)) = true
  /\ port_text (payload_match "tcp" "dport" (JInt 22)) = Ok "端口 22".
Proof. split; reflexivity. Qed.

Example port_text_relational :
  is_port_node (comparison_node "relational" "tcp" "sport" (JInt 443)) = true
  /\ port_text (comparison_node "relational" "tcp" "sport" (JInt 443))
     = Ok "端口 443".
Proof. split; reflexivity. Qed.

Example port_text_cmp :
  is_port_node (comparison_node "cmp" "udp" "dport" (JInt 53)) = true
  /\ port_text (comparison_node "cmp" "udp" "dport" (JInt 53)) = Ok "端口 53".
Proof. split; reflexivity. Qed.

Example port_text_payload :
  is_port_node (payload_value_node "tcp" "dport" (JInt 8080)) = true
  /\ port_text (payload_value_node "tcp" "dport" (JInt 8080))
     = Ok "端口 8080".
Proof. split; reflexivity. Qed.

Example address_node_is_no_port_node :
  is_port_node (payload_match "ip" "daddr" (JStr "10.0.0.1")) = false.
Proof. reflexivity. Qed.

Ltac run_gets :=
  repeat match goal with
         | |- context [bind ?m _] =>
             destruct m; cbn [bind]; try (intros; discriminate)
         end.
Ltac port_branch :=
  run_gets;
  match goal with
  | |- context [is_port_field ?f] => destruct (is_port_field f)
  end;
  intros H;
  [ inversion H; reflexivity
  | repeat match type of H with
           | context [if ?b then _ else _] => destruct b
           end;
    inversion H; reflexivity ].

(** One node and the port descriptor: a port node writes its own text, any
    other node leaves the descriptor as it was. *)
Lemma step_port_node st e st' :
  step st e = Ok st' ->
  if is_port_node e then port_text e = Ok (port_info st')
  else port_info st' = port_info st.
Proof.
  unfold step, is_port_node, tested_field, port_text.
  destruct (negb (truthy e)); [intros H; inversion H; reflexivity|].
  destruct (first_key e) as [k|]; cbn [bind]; [|discriminate].
  destruct (eq_str k "match").
  { unfold match_node, comparison_field. port_branch. }
  destruct (eq_str k "relational").
  { unfold relational_node, comparison_field. port_branch. }
  destruct (eq_str k "cmp").
  { unfold cmp_node, comparison_field. port_branch. }
  destruct (eq_str k "payload").
  { unfold payload_node. port_branch. }
  intros H.
  repeat match type of H with
         | (if ?b then _ else _) = _ => destruct b
         end;
    first [ exact (meta_node_stable e _ _ H)
          | exact (ct_node_stable e _ _ H)
          | exact (counter_node_stable e _ _ H)
          | exact (jump_node_stable e _ _ H)
          | exact (xt_node_stable e _ _ H)
          | inversion H; reflexivity ].
Qed.

Lemma run_without_port_node l : forall st st',
  existsb is_port_node l = false ->
  foldM step l st = Ok st' -> port_info st' = port_info st.
Proof.
  induction l as [|e l IH]; intros st st' Hn H; simpl in H.
  - now inversion H.
  - cbn [existsb] in Hn. apply orb_false_iff in Hn as [He Hl].
    destruct (step st e) as [st1|] eqn:E; [|discriminate H]. cbn [bind] in H.
    pose proof (step_port_node _ _ _ E) as Hs. rewrite He in Hs.
    rewrite (IH _ _ Hl H). exact Hs.
Qed.

Lemma port_text_nonempty e d : port_text e = Ok d -> d <> "".
Proof.
  unfold port_text.
  destruct (first_key e) as [k|]; cbn [bind]; [|discriminate].
  repeat match goal with
         | |- (if ?b then _ else _) = _ -> _ => destruct b
         end;
    run_gets; intros H; inversion H;
    first [apply descriptor_nonempty | discriminate].
Qed.

(** The last port node of a list decides the descriptor the whole list
    leaves, and the formatted line opens with it. *)
Lemma format_shows_last_port_node pre e post out :
  format_rule_expression (JList (pre ++ e :: post)) = Ok out ->
  is_port_node e = true ->
  existsb is_port_node post = false ->
  exists d rest st,
    port_text e = Ok d
    /\ foldM step (pre ++ e :: post) fmt0 = Ok st
    /\ port_info st = d
    /\ out = d ++ rest.
Proof.
  intros Hf He Hpost. unfold format_rule_expression in Hf.
  assert (Ht : truthy (JList (pre ++ e :: post)) = true)
    by (now destruct pre).
  rewrite Ht in Hf. cbn [negb iter bind] in Hf.
  destruct (foldM step (pre ++ e :: post) fmt0) as [st|] eqn:E;
    [|discriminate Hf].
  cbn [bind] in Hf. inversion Hf; subst out; clear Hf.
  pose proof E as E'. rewrite foldM_app in E'.
  destruct (foldM step pre fmt0) as [st1|]; [|discriminate E'].
  cbn [bind foldM] in E'.
  destruct (step st1 e) as [st2|] eqn:E2; [|discriminate E'].
  cbn [bind] in E'.
  pose proof (step_port_node _ _ _ E2) as Hs. rewrite He in Hs.
  pose proof (run_without_port_node _ _ _ Hpost E') as Hk.
  rewrite <- Hk in Hs.
  destruct (assemble_port_first st (port_text_nonempty _ _ Hs)) as [rest Hr].
  exists (port_info st), rest, st. auto.
Qed.

(** C2, as stated, fails: of two port nodes the second one is shown. *)
Lemma first_port_node_is_overwritten :
  let l := [payload_match "tcp" "dport" (JInt 22);
            payload_match "tcp" "dport" (JInt 80)] in
  port_descriptors l = ["端口 22"; "端口 80"]
  /\ foldM step l fmt0
     = Ok {| parts := []; port_info := "端口 80"; action := "" |}
  /\ format_rule_expression (JList l) = Ok "端口 80".
Proof. repeat split. Qed.

(** C2, as the code has it.  In a node list that formats without error,
    let [e] be the last port node: a node whose first key is match,
    relational, cmp or payload and whose payload field is dport or sport.
    The port descriptor of the formatted rule is the text of [e] (the mark
    [!] of a negated node, the label, and the right operand, or the value
    of a payload node), whatever port nodes come before it, and the
    formatted line opens with it. *)
Theorem last_port_node_wins (pre post : list json) (e : json) (out : string) :
  format_rule_expression (JList (pre ++ e :: post)) = Ok out ->
  is_port_node e = true ->
  existsb is_port_node post = false ->
  exists d rest st,
    port_text e = Ok d
    /\ foldM step (pre ++ e :: post) fmt0 = Ok st
    /\ port_info st = d
    /\ out = d ++ rest.
Proof. exact (format_shows_last_port_node pre e post out). Qed.

Lemma last_port_node_wins_witness :
  exists d rest st,
    port_text (comparison_node "relational" "tcp" "sport" (JInt 443))
    = Ok d
    /\ foldM step
         ([payload_match "tcp" "dport" (JInt 22);
           comparison_node "cmp" "tcp" "dport" (JInt 80)]
          ++ comparison_node "relational" "tcp" "sport" (JInt 443)
             :: [JDict [("accept", JNull)]]) fmt0 = Ok st
    /\ port_info st = d
    /\ "端口 443 放行" = d ++ rest.
Proof.
  exact (last_port_node_wins
           [payload_match "tcp" "dport" (JInt 22);
            comparison_node "cmp" "tcp" "dport" (JInt 80)]
           [JDict [("accept", JNull)]]
           (comparison_node "relational" "tcp" "sport" (JInt 443))
           "端口 443 放行" eq_refl eq_refl eq_refl).
Defined.



End InterpFacts.

(** ** Search and summary *)
Module QueryFacts.
Import Py Json Query PyFacts InterpFacts.

(** *** The port search *)




Lemma search_item_not_rule kv acc :
  assoc "rule" kv = None -> search_item "tcp" 22 acc (JDict kv) = Ok acc.
Proof. intros H. unfold search_item. cbn [member]. now rewrite H. Qed.








(** Outside the conditions of C8 below the search gives up.  A set of
    ports as the operand of another rule's [tcp dport] match is handed to
    [int()], and a named counter is read as a dict by the formatter: either
    exception ends the search with no answer. *)
Lemma search_gives_up_on_a_port_set :
  search_rules_by_port
    (Some (forest
             [rule_entry "ip" "filter" "input" 3
                [Interp.payload_match "tcp" "dport"
                   (JDict [("set", JList [JInt 80; JInt 443])]);
                 JDict [("accept", JNull)]];
              rule_entry "ip" "filter" "input" 4
                [Interp.payload_match "tcp" "dport" (JInt 22);
                 JDict [("accept", JNull)]]]))
    (JStr "22") "tcp"
  = None.
Proof. reflexivity. Qed.

Lemma search_gives_up_when_formatting_raises :
  search_rules_by_port
    (Some (forest
             [rule_entry "ip" "filter" "input" 4
                [Interp.payload_match "tcp" "dport" (JInt 22);
                 JDict [("counter", JStr "ssh_hits")];
                 JDict [("accept", JNull)]]]))
    (JStr "22") "tcp"
  = None.
Proof. reflexivity. Qed.



(** *** The summary *)

Lemma summary_item_keeps_order acc item acc' :
  summary_item acc item = Ok acc' ->
  (input_port_rules acc <= input_rules acc)%nat ->
  (input_port_rules acc' <= input_rules acc')%nat.
Proof.
  unfold summary_item.
  repeat match goal with
         | |- bind ?m _ = _ -> _ => destruct m; cbn [bind]; [| discriminate]
         | |- (if ?b then _ else _) = _ -> _ => destruct b
         end;
    intros H Hle; inversion H; subst; cbn; try destruct (contains _ _); lia.
Qed.

Lemma summary_item_unmanaged r acc :
  is_managed r = Ok false -> summary_item acc (rule_item r) = Ok acc.
Proof.
  intros H. unfold summary_item, rule_item. cbn -[is_managed]. now rewrite H.
Qed.

Lemma summarize_forest items :
  summarize (forest items)
  = foldM summary_item items {| input_rules := 0; input_port_rules := 0 |}.
Proof. destruct items; reflexivity. Qed.

(** C10.  In every summary the count of port rules is at most the count
    of rules; a rule that is not in chain input of table filter of family ip
    changes neither count, and a rule that is adds one to the rule count and
    one to the port-rule count when its description shows a port. *)
Theorem summary_counts_managed_rules :
  (forall data s,
      get_rule_summary data = Some s ->
      (input_port_rules s <= input_rules s)%nat)
  /\ (forall pre post r,
      is_managed r = Ok false ->
      get_rule_summary (forest (pre ++ rule_item r :: post))
      = get_rule_summary (forest (pre ++ post)))
  /\ (forall pre r expr desc s,
      is_managed r = Ok true ->
      get r "expr" (JList []) = Ok expr ->
      Interp.format_rule_expression expr = Ok desc ->
      get_rule_summary (forest pre) = Some s ->
      get_rule_summary (forest (pre ++ [rule_item r]))
      = Some {| input_rules := S (input_rules s);
                input_port_rules :=
                  if contains "端口" desc then S (input_port_rules s)
                  else input_port_rules s |}).
Proof.
  split; [|split].
  - intros data s. unfold get_rule_summary, summarize.
    destruct (get data "nftables" JNull) as [entries|]; cbn [bind]; [|discriminate].
    destruct (negb (truthy entries)).
    { intros H. inversion H; subst. cbn. lia. }
    destruct (getitem data "nftables") as [entries'|]; cbn [bind]; [|discriminate].
    destruct (iter entries') as [items|]; cbn [bind]; [|discriminate].
    destruct (foldM summary_item items _) as [s'|] eqn:E; [|discriminate].
    intros H. inversion H; subst.
    refine (foldM_invariant summary_item
              (fun a => (input_port_rules a <= input_rules a)%nat)
              summary_item_keeps_order _ _ _ E _).
    cbn. lia.
  - intros pre post r Hr. unfold get_rule_summary.
    rewrite !summarize_forest, !foldM_app.
    destruct (foldM summary_item pre _) as [acc|]; cbn [bind foldM]; [|reflexivity].
    now rewrite (summary_item_unmanaged _ _ Hr).
  - intros pre r expr desc s Hr He Hd. unfold get_rule_summary.
    rewrite !summarize_forest, foldM_app.
    destruct (foldM summary_item pre _) as [acc|]; cbn [bind foldM]; [|discriminate].
    intros H. inversion H; subst acc.
    unfold summary_item, rule_item. cbn -[is_managed get Interp.format_rule_expression].
    rewrite Hr. cbn [bind]. rewrite He. cbn [bind]. rewrite Hd. reflexivity.
Qed.

Lemma summary_counts_managed_rules_witness :
  (1 <= 2)%nat
  /\ get_rule_summary
       (forest [rule_entry "ip" "filter" "input" 4 Interp.ssh_from_80;
                rule_entry "ip" "filter" "output" 5 Interp.ssh_from_80;
                rule_entry "ip" "filter" "input" 6 [JDict [("accept", JNull)]]])
     = get_rule_summary
         (forest [rule_entry "ip" "filter" "input" 4 Interp.ssh_from_80;
                  rule_entry "ip" "filter" "input" 6 [JDict [("accept", JNull)]]]).
Proof.
  split.
  - exact (proj1 summary_counts_managed_rules
             (forest [rule_entry "ip" "filter" "input" 4 Interp.ssh_from_80;
                      rule_entry "ip" "filter" "input" 6
                        [JDict [("accept", JNull)]]])
             {| input_rules := 2; input_port_rules := 1 |} eq_refl).
  - exact (proj1 (proj2 summary_counts_managed_rules)
             [rule_entry "ip" "filter" "input" 4 Interp.ssh_from_80]
             [rule_entry "ip" "filter" "input" 6 [JDict [("accept", JNull)]]]
             (JDict [("family", JStr "ip"); ("table", JStr "filter");
                     ("chain", JStr "output"); ("handle", JInt 5);
                     ("expr", JList Interp.ssh_from_80)])
             eq_refl).
Defined.

End QueryFacts.

(** ** Port validation *)
Module ValidateFacts.
Import Py Json Synth Validate PyFacts.

Lemma digit_char_parses c d :
  is_digit c = true -> exists d', DecimalString.uint_of_char c (Some d) = Some d'.
Proof.
  destruct c as [[] [] [] [] [] [] [] []]; intros H; try discriminate H;
    cbn; eauto.
Qed.

Lemma digits_parse s :
  all_chars is_digit s = true -> exists d, NilEmpty.uint_of_string s = Some d.
Proof.
  induction s as [|c r IH]; cbn [all_chars NilEmpty.uint_of_string]; [eauto|].
  intros H. apply andb_true_iff in H as [Hc Hr].
  destruct (IH Hr) as [d ->]. exact (digit_char_parses c d Hc).
Qed.

Lemma isdigit_spec s :
  isdigit s = true -> s <> "" /\ all_chars is_digit s = true.
Proof.
  unfold isdigit. intros H. apply andb_true_iff in H as [Hne Hd].
  split; [|exact Hd]. intros ->. discriminate Hne.
Qed.

(** A string of digits is an integer literal, and not a negative one;
    [int()] refuses it only for its length. *)
Lemma isdigit_int s :
  isdigit s = true ->
  if too_many_digits s then int_of_str s = Raise ValueError
  else exists n, int_of_str s = Ok (Z.of_N n).
Proof.
  intros H. destruct (isdigit_spec s H) as [Hne Hd].
  rewrite (int_of_str_digits s Hd Hne). unfold parse_unsigned.
  rewrite (drop_underscores_start s Hd Hne).
  destruct (too_many_digits s); [reflexivity|].
  destruct (digits_parse s Hd) as [d Hp].
  unfold NilZero.uint_of_string. destruct s; [congruence|].
  rewrite Hp. cbn. eauto.
Qed.

Lemma contains_char_absent x s :
  all_chars (fun c => negb (Ascii.eqb c x)) s = true ->
  contains (String x "") s = false.
Proof.
  induction s as [|c r IH]; [reflexivity|].
  cbn [all_chars contains String.prefix]. intros H.
  apply andb_true_iff in H as [Hc Hr]. apply negb_true_iff in Hc.
  rewrite (IH Hr), orb_false_r.
  destruct (ascii_dec x c) as [->|]; [|reflexivity].
  now rewrite Ascii.eqb_refl in Hc.
Qed.

Lemma digit_not_comma c : is_digit c = true -> negb (Ascii.eqb c ",") = true.
Proof.
  destruct c as [[] [] [] [] [] [] [] []]; vm_compute; congruence.
Qed.

Lemma digits_no_dash s :
  all_chars is_digit s = true -> contains "-" s = false.
Proof.
  intros H. apply contains_char_absent.
  exact (all_chars_weaken _ _ _ digit_not_dash H).
Qed.

Lemma digits_no_comma s :
  all_chars is_digit s = true -> contains "," s = false.
Proof.
  intros H. apply contains_char_absent.
  exact (all_chars_weaken _ _ _ digit_not_comma H).
Qed.

Lemma remove_controls_plain s :
  all_chars plain s = true -> remove_controls s = s.
Proof.
  induction s as [|c r IH]; [reflexivity|].
  cbn [all_chars remove_controls]. intros H.
  apply andb_true_iff in H as [Hc Hr]. unfold plain in Hc.
  apply negb_true_iff, orb_false_iff in Hc as [Hc H194].
  rewrite Hc, H194. now rewrite (IH Hr).
Qed.

Lemma digit_plain c : is_digit c = true -> plain c = true.
Proof.
  destruct c as [[] [] [] [] [] [] [] []]; vm_compute; congruence.
Qed.

Lemma digit_or_dash_plain c :
  is_digit c || Ascii.eqb c "-" = true -> plain c = true.
Proof.
  destruct c as [[] [] [] [] [] [] [] []]; vm_compute; congruence.
Qed.

Lemma digit_or_dash_not_space c :
  is_digit c || Ascii.eqb c "-" = true -> negb (is_space c) = true.
Proof.
  destruct c as [[] [] [] [] [] [] [] []]; vm_compute; congruence.
Qed.

Lemma digit_or_dash_not_comma c :
  is_digit c || Ascii.eqb c "-" = true -> negb (Ascii.eqb c ",") = true.
Proof.
  destruct c as [[] [] [] [] [] [] [] []]; vm_compute; congruence.
Qed.

Lemma range_text_chars s e :
  all_chars (fun c => is_digit c || Ascii.eqb c "-")
    (str_of_N s ++ "-" ++ str_of_N e) = true.
Proof.
  rewrite all_chars_append. apply andb_true_iff. split.
  - apply (all_chars_weaken is_digit); [|apply str_of_N_digits].
    intros c ->. reflexivity.
  - cbn [append all_chars]. cbn.
    apply (all_chars_weaken is_digit); [|apply str_of_N_digits].
    intros c ->. reflexivity.
Qed.

Lemma str_of_N_nonempty_app n t : str_of_N n ++ t <> "".
Proof.
  pose proof (str_of_N_nonempty n). destruct (str_of_N n); [congruence|discriminate].
Qed.

Lemma sanitize_plain s :
  all_chars plain s = true ->
  all_chars (fun c => negb (is_space c)) s = true ->
  sanitize_input s = s.
Proof.
  intros Hp Hs. unfold sanitize_input.
  destruct (String.eqb_spec s ""); [now subst|].
  now rewrite (remove_controls_plain s Hp), (strip_id s Hs).
Qed.

Lemma isdigit_str_of_N n : isdigit (str_of_N n) = true.
Proof.
  unfold isdigit. rewrite str_of_N_digits, andb_true_r.
  apply negb_true_iff, String.eqb_neq, str_of_N_nonempty.
Qed.

Lemma in_port_bounds_of_N n :
  in_port_bounds (Z.of_N n) = ((1 <=? n) && (n <=? 65535))%N.
Proof.
  unfold in_port_bounds, MIN_PORT, MAX_PORT.
  destruct (N.leb_spec 1 n), (N.leb_spec n 65535),
    (Z.leb_spec 1 (Z.of_N n)), (Z.leb_spec (Z.of_N n) 65535);
    cbn; try reflexivity; lia.
Qed.

(** A number too long for [int()] fails every test against the port
    bounds. *)
Lemma long_number_out_of_bounds n :
  too_many_digits (str_of_N n) = true -> (n <=? 65535)%N = false.
Proof.
  intros H. apply N.leb_gt. exact (long_number_is_no_port n H).
Qed.

Lemma is_valid_port_of_N (n : N) :
  is_valid_port (JStr (str_of_N n)) = ((1 <=? n) && (n <=? 65535))%N.
Proof.
  unfold is_valid_port. cbn [int]. rewrite int_of_str_of_N.
  destruct (too_many_digits (str_of_N n)) eqn:T.
  - now rewrite (long_number_out_of_bounds n T), andb_false_r.
  - apply in_port_bounds_of_N.
Qed.

(** X1.  The decimal text of a number is a valid port exactly when the
    number lies between 1 and 65535. *)
Theorem is_valid_port_decimal (n : N) :
  is_valid_port (JStr (str_of_N n)) = ((1 <=? n) && (n <=? 65535))%N.
Proof. exact (is_valid_port_of_N n). Qed.

(** X2.  On the text [s-e] of two numbers, [is_valid_port_range] raises
    [ValueError] when one of the two is written with more than 4300 digits,
    the most [int()] converts; otherwise the text is accepted as the range
    (s, e), with the text [s-e] back, exactly when 1 <= s <= e <= 65535, and
    any other pair is refused with the bounds message. *)
Theorem is_valid_port_range_of_range (s e : N) :
  is_valid_port_range (str_of_N s ++ "-" ++ str_of_N e) =
  if too_many_digits (str_of_N s) || too_many_digits (str_of_N e)
  then Raise ValueError
  else
    Ok (if ((1 <=? s) && (s <=? e) && (e <=? 65535))%N
        then (true, Some [Z.of_N s; Z.of_N e], str_of_N s ++ "-" ++ str_of_N e)
        else (false, None,
              "端口号必须在1-65535之间，且起始端口小于等于结束端口")).
Proof.
  unfold is_valid_port_range.
  pose proof (range_text_chars s e) as Hc.
  rewrite (sanitize_plain _ (all_chars_weaken _ _ _ digit_or_dash_plain Hc)
             (all_chars_weaken _ _ _ digit_or_dash_not_space Hc)).
  destruct (String.eqb_spec (str_of_N s ++ "-" ++ str_of_N e) "") as [E|_].
  { now elim (str_of_N_nonempty_app s _ E). }
  rewrite (contains_char_absent "," _
             (all_chars_weaken _ _ _ digit_or_dash_not_comma Hc)).
  rewrite (contains_append "-" (str_of_N s) (str_of_N e)).
  change (str_of_N s ++ "-" ++ str_of_N e)
    with (str_of_N s ++ String "-" (str_of_N e)).
  rewrite (split_on_once _ _ _ (SynthFacts.no_dash s) (SynthFacts.no_dash e)).
  rewrite !(strip_id _ (SynthFacts.no_space _)), !isdigit_str_of_N.
  cbn [andb negb]. rewrite !int_of_str_of_N.
  destruct (too_many_digits (str_of_N s)); [reflexivity|].
  destruct (too_many_digits (str_of_N e)); [reflexivity|].
  cbn [bind orb].
  rewrite !str_of_Z_of_N. unfold MIN_PORT, MAX_PORT.
  replace ((1 <=? Z.of_N s)%Z && (Z.of_N s <=? Z.of_N e)%Z
           && (Z.of_N e <=? 65535)%Z)
    with ((1 <=? s) && (s <=? e) && (e <=? 65535))%N.
  2:{ destruct (N.leb_spec 1 s), (N.leb_spec s e), (N.leb_spec e 65535),
        (Z.leb_spec 1 (Z.of_N s)), (Z.leb_spec (Z.of_N s) (Z.of_N e)),
        (Z.leb_spec (Z.of_N e) 65535); cbn; try reflexivity; lia. }
  now destruct ((1 <=? s) && (s <=? e) && (e <=? 65535))%N.
Qed.

(** The two cases of X2 on concrete texts: an end of 4301 digits is not
    converted, a pair within the limit is answered. *)
Example is_valid_port_range_long_end :
  is_valid_port_range ("1-" ++ times 4301 "9") = Raise ValueError.
Proof. vm_compute. reflexivity. Qed.

Example is_valid_port_range_descending :
  is_valid_port_range "8090-8080"
  = Ok (false, None, "端口号必须在1-65535之间，且起始端口小于等于结束端口").
Proof. reflexivity. Qed.

(** X3.  The decimal text of one number is accepted as the one-port tuple
    exactly when the number lies between 1 and 65535. *)
Theorem is_valid_port_range_of_single (n : N) :
  is_valid_port_range (str_of_N n) =
  Ok (if ((1 <=? n) && (n <=? 65535))%N
      then (true, Some [Z.of_N n], str_of_N n)
      else (false, None, "端口号必须在1-65535之间")).
Proof.
  unfold is_valid_port_range.
  pose proof (str_of_N_digits n) as Hd.
  rewrite (sanitize_plain _ (all_chars_weaken _ _ _ digit_plain Hd)
             (SynthFacts.no_space n)).
  destruct (String.eqb_spec (str_of_N n) "") as [E|_].
  { now elim (str_of_N_nonempty n). }
  rewrite (digits_no_comma _ Hd), (digits_no_dash _ Hd), isdigit_str_of_N.
  rewrite is_valid_port_of_N, int_of_str_of_N.
  destruct (too_many_digits (str_of_N n)) eqn:T.
  - now rewrite (long_number_out_of_bounds n T), andb_false_r.
  - cbn [bind]. now destruct ((1 <=? n) && (n <=? 65535))%N.
Qed.

Lemma split_on_nonempty sep s : split_on sep s <> [].
Proof.
  destruct s as [|c r]; cbn [split_on]; [discriminate|].
  destruct (Ascii.eqb c sep); [discriminate|].
  destruct (split_on sep r); discriminate.
Qed.

Lemma in_port_bounds_spec z :
  in_port_bounds z = true -> (1 <= z <= 65535)%Z.
Proof.
  unfold in_port_bounds, MIN_PORT, MAX_PORT. intros H.
  apply andb_true_iff in H as [H1 H2]. lia.
Qed.

Lemma check_ports_sound ports : forall acc,
  Forall (fun p => (1 <= p <= 65535)%Z) acc ->
  exists flag ps msg,
    check_ports ports acc = Ok (flag, ps, msg)
    /\ (flag = true ->
        exists l, ps = Some l
                  /\ List.length l = (List.length acc + List.length ports)%nat
                  /\ Forall (fun p => (1 <= p <= 65535)%Z) l)
    /\ (flag = false -> ps = None).
Proof.
  induction ports as [|port rest IH]; intros acc Hacc; cbn [check_ports].
  - exists true, (Some acc), "多端口". split; [reflexivity|]. split; [|discriminate].
    intros _. exists acc. cbn. rewrite Nat.add_0_r. auto.
  - destruct (is_valid_port (JStr port)) eqn:Hv; cbn [negb].
    2:{ do 3 eexists. split; [reflexivity|]. split; [discriminate|reflexivity]. }
    unfold is_valid_port in Hv.
    destruct (int (JStr port)) as [p|]; [|discriminate Hv]. cbn [bind].
    destruct (IH (acc ++ [p])%list) as (flag & ps & msg & Hc & Ht & Hf).
    { apply Forall_app. split; [exact Hacc|].
      constructor; [exact (in_port_bounds_spec p Hv) | constructor]. }
    exists flag, ps, msg. split; [exact Hc|]. split; [|exact Hf].
    intros Hflag. destruct (Ht Hflag) as (l & Hl & Hlen & Hall).
    exists l. split; [exact Hl|]. split; [|exact Hall].
    rewrite Hlen, length_app. cbn. lia.
Qed.

(** X4.  On ASCII input [is_valid_port_range] answers or raises
    [ValueError].  It raises only on a dash-form range of two digit strings
    one of which has more than 4300 digits, the most [int()] converts.  When
    it accepts, it returns at least one port and every port it returns lies
    between 1 and 65535; when it refuses, it returns no port. *)
Theorem is_valid_port_range_answers (port_input : string) :
  all_chars is_ascii port_input = true ->
  (exists flag ps msg,
      is_valid_port_range port_input = Ok (flag, ps, msg)
      /\ (flag = true ->
          exists l, ps = Some l /\ l <> []
                    /\ Forall (fun p => (1 <= p <= 65535)%Z) l)
      /\ (flag = false -> ps = None))
  \/ (is_valid_port_range port_input = Raise ValueError
      /\ contains "," (sanitize_input port_input) = false
      /\ exists p0 p1,
          split_on "-" (sanitize_input port_input) = [p0; p1]
          /\ isdigit (strip p0) = true /\ isdigit (strip p1) = true
          /\ (too_many_digits (strip p0) = true
              \/ too_many_digits (strip p1) = true)).
Proof.
  intros _. unfold is_valid_port_range.
  set (s := sanitize_input port_input).
  assert (Hrefuse : forall msg,
             exists flag ps msg',
               @Ok range_result (false, None, msg) = Ok (flag, ps, msg')
               /\ (flag = true ->
                   exists l, ps = Some l /\ l <> []
                             /\ Forall (fun p => (1 <= p <= 65535)%Z) l)
               /\ (flag = false -> ps = None)).
  { intros msg. do 3 eexists. split; [reflexivity|].
    split; [discriminate|reflexivity]. }
  destruct (String.eqb s ""); [left; apply Hrefuse|].
  destruct (contains "," s) eqn:Hcomma.
  { left.
    destruct (check_ports_sound (map strip (split_on "," s)) [] (Forall_nil _))
      as (flag & ps & msg & Hc & Ht & Hf).
    exists flag, ps, msg. split; [exact Hc|]. split; [|exact Hf].
    intros Hflag. destruct (Ht Hflag) as (l & Hl & Hlen & Hall).
    exists l. split; [exact Hl|]. split; [|exact Hall].
    intros ->. cbn in Hlen. rewrite length_map in Hlen.
    pose proof (split_on_nonempty "," s) as Hne.
    destruct (split_on "," s); [congruence|discriminate Hlen]. }
  destruct (contains "-" s).
  { destruct (split_on "-" s) as [|p0 [|p1 [|p2 rest]]];
      try (left; apply Hrefuse).
    destruct (isdigit (strip p0)) eqn:H0; [|left; apply Hrefuse].
    destruct (isdigit (strip p1)) eqn:H1; [|left; apply Hrefuse].
    cbn [andb negb].
    pose proof (isdigit_int _ H0) as Ha. pose proof (isdigit_int _ H1) as Hb.
    destruct (too_many_digits (strip p0)) eqn:T0.
    { right. rewrite Ha. split; [reflexivity|]. split; [reflexivity|].
      exists p0, p1. auto. }
    destruct Ha as [a ->]. cbn [bind].
    destruct (too_many_digits (strip p1)) eqn:T1.
    { right. rewrite Hb. split; [reflexivity|]. split; [reflexivity|].
      exists p0, p1. auto. }
    destruct Hb as [b ->]. cbn [bind]. left.
    unfold MIN_PORT, MAX_PORT.
    destruct (Z.leb_spec 1 (Z.of_N a)), (Z.leb_spec (Z.of_N a) (Z.of_N b)),
      (Z.leb_spec (Z.of_N b) 65535); cbn [andb negb]; try apply Hrefuse.
    do 3 eexists. split; [reflexivity|]. split; [|discriminate].
    intros _. eexists. split; [reflexivity|]. split; [discriminate|].
    repeat constructor; lia. }
  left.
  destruct (isdigit s) eqn:Hd; [|apply Hrefuse].
  destruct (is_valid_port (JStr s)) eqn:Hv; cbn [negb]; [|apply Hrefuse].
  unfold is_valid_port in Hv. cbn [int] in Hv.
  destruct (int_of_str s) as [p|]; [|discriminate Hv]. cbn [bind].
  do 3 eexists. split; [reflexivity|]. split; [|discriminate].
  intros _. eexists. split; [reflexivity|]. split; [discriminate|].
  constructor; [exact (in_port_bounds_spec p Hv) | constructor].
Qed.

Lemma is_valid_port_range_answers_witness :
  (exists flag ps msg,
      is_valid_port_range "80, 443,8080" = Ok (flag, ps, msg)
      /\ (flag = true ->
          exists l, ps = Some l /\ l <> []
                    /\ Forall (fun p => (1 <= p <= 65535)%Z) l)
      /\ (flag = false -> ps = None))
  \/ (is_valid_port_range "80, 443,8080" = Raise ValueError
      /\ contains "," (sanitize_input "80, 443,8080") = false
      /\ exists p0 p1,
          split_on "-" (sanitize_input "80, 443,8080") = [p0; p1]
          /\ isdigit (strip p0) = true /\ isdigit (strip p1) = true
          /\ (too_many_digits (strip p0) = true
              \/ too_many_digits (strip p1) = true)).
Proof.
  exact (is_valid_port_range_answers "80, 443,8080" eq_refl).
Defined.

(** *** Sanitising *)

Lemma all_chars_lstrip p s :
  all_chars p s = true -> all_chars p (lstrip s) = true.
Proof.
  induction s as [|c r IH]; [reflexivity|]. cbn [lstrip all_chars].
  intros H. destruct (is_space c); [|exact H].
  apply andb_true_iff in H as [_ Hr]. exact (IH Hr).
Qed.

Lemma all_chars_rstrip p s :
  all_chars p s = true -> all_chars p (rstrip s) = true.
Proof.
  induction s as [|c r IH]; [reflexivity|]. cbn [rstrip all_chars].
  intros H. apply andb_true_iff in H as [Hc Hr]. specialize (IH Hr).
  destruct (rstrip r) as [|d r'].
  - destruct (is_space c); [reflexivity|]. cbn [all_chars]. now rewrite Hc.
  - cbn [all_chars] in *. now rewrite Hc, IH.
Qed.

Lemma rstrip_idem s : rstrip (rstrip s) = rstrip s.
Proof.
  induction s as [|c r IH]; [reflexivity|]. cbn [rstrip].
  destruct (rstrip r) as [|d r'] eqn:E.
  - destruct (is_space c) eqn:Hc; [reflexivity|]. cbn [rstrip]. now rewrite Hc.
  - change (rstrip (String c (String d r'))) with
      (match rstrip (String d r') with
       | EmptyString => if is_space c then EmptyString else String c EmptyString
       | r0 => String c r0
       end).
    now rewrite IH.
Qed.

Lemma lstrip_head s :
  lstrip s = "" \/ exists c r, lstrip s = String c r /\ is_space c = false.
Proof.
  induction s as [|c r IH]; [now left|]. cbn [lstrip].
  destruct (is_space c) eqn:Hc; [exact IH|]. right. eauto.
Qed.

Lemma rstrip_keeps_head c r :
  is_space c = false -> exists r', rstrip (String c r) = String c r'.
Proof.
  intros Hc. cbn [rstrip]. destruct (rstrip r); [|eauto].
  rewrite Hc. eauto.
Qed.

Lemma strip_idem s : strip (strip s) = strip s.
Proof.
  unfold strip. destruct (lstrip_head s) as [E | (c & r & E & Hc)]; rewrite E.
  - reflexivity.
  - destruct (rstrip_keeps_head c r Hc) as [r' E'].
    rewrite E'. cbn [lstrip]. rewrite Hc, <- E'. apply rstrip_idem.
Qed.

Lemma ascii_kept_is_plain c :
  is_ascii c && negb (is_control c) = true -> plain c = true.
Proof.
  destruct c as [[] [] [] [] [] [] [] []]; vm_compute; congruence.
Qed.

Lemma ascii_not_lead c :
  is_ascii c = true -> (nat_of_ascii c =? 194)%nat = false.
Proof.
  destruct c as [[] [] [] [] [] [] [] []]; vm_compute; congruence.
Qed.

Lemma remove_controls_ascii s :
  all_chars is_ascii s = true ->
  all_chars (fun c => is_ascii c && negb (is_control c)) (remove_controls s)
  = true.
Proof.
  induction s as [|c r IH]; [reflexivity|]. cbn [all_chars remove_controls].
  intros H. apply andb_true_iff in H as [Hc Hr]. specialize (IH Hr).
  fold (is_control c). destruct (is_control c) eqn:Hk; [exact IH|].
  rewrite (ascii_not_lead c Hc). cbn [all_chars]. now rewrite Hc, Hk, IH.
Qed.

(** X20.  On ASCII text, what [sanitize_input] returns holds no control
    character, and sanitising it once more changes nothing. *)
Theorem sanitize_input_cleans_ascii (input_str : string) :
  all_chars is_ascii input_str = true ->
  all_chars (fun c => negb (is_control c)) (sanitize_input input_str) = true
  /\ sanitize_input (sanitize_input input_str) = sanitize_input input_str.
Proof.
  intros Ha.
  destruct (String.eqb_spec input_str "") as [->|Hne]; [split; reflexivity|].
  assert (E : sanitize_input input_str = strip (remove_controls input_str)).
  { unfold sanitize_input. apply String.eqb_neq in Hne. now rewrite Hne. }
  rewrite !E.
  pose proof (remove_controls_ascii _ Ha) as Hk.
  assert (Hs : all_chars (fun c => is_ascii c && negb (is_control c))
                 (strip (remove_controls input_str)) = true).
  { unfold strip. now apply all_chars_rstrip, all_chars_lstrip. }
  split.
  - apply (all_chars_weaken _ _ _ (fun c H => proj2 (andb_prop _ _ H)) Hs).
  - unfold sanitize_input.
    destruct (String.eqb_spec (strip (remove_controls input_str)) "")
      as [E0|_]; [now rewrite E0|].
    rewrite (remove_controls_plain _
               (all_chars_weaken _ _ _ ascii_kept_is_plain Hs)).
    apply strip_idem.
Qed.

Lemma sanitize_input_cleans_ascii_witness :
  all_chars (fun c => negb (is_control c))
    (sanitize_input (String (ascii_of_nat 7) " 80-90 ")) = true
  /\ sanitize_input (sanitize_input (String (ascii_of_nat 7) " 80-90 "))
     = sanitize_input (String (ascii_of_nat 7) " 80-90 ").
Proof.
  exact (sanitize_input_cleans_ascii (String (ascii_of_nat 7) " 80-90 ")
           eq_refl).
Defined.

(** *** The port prompt *)

Lemma lower_digit_start c r :
  is_digit c = true -> String.eqb (lower (String c r)) "menu" = false.
Proof.
  destruct c as [[] [] [] [] [] [] [] []]; intros H; try discriminate H;
    reflexivity.
Qed.

Lemma str_of_N_head n :
  exists c r, str_of_N n = String c r /\ is_digit c = true.
Proof.
  pose proof (str_of_N_digits n) as Hd. pose proof (str_of_N_nonempty n) as Hne.
  destruct (str_of_N n) as [|c r]; [congruence|].
  cbn [all_chars] in Hd. apply andb_true_iff in Hd as [Hc _]. eauto.
Qed.

Lemma split_on_twice sep s :
  contains (String sep "") s = true -> (2 <= List.length (split_on sep s))%nat.
Proof.
  induction s as [|c r IH]; [discriminate|].
  cbn [contains String.prefix split_on].
  destruct (Ascii.eqb_spec c sep) as [->|Hne].
  - intros _. pose proof (split_on_nonempty sep r).
    destruct (split_on sep r); [congruence | cbn; lia].
  - destruct (ascii_dec sep c) as [E|_]; [now elim Hne|].
    cbn [orb]. intros H. specialize (IH H).
    destruct (split_on sep r); cbn in *; lia.
Qed.

Lemma not_no_port_is_not_icmp protocol :
  in_strings (lower protocol) protocols_without_port = false ->
  is_icmp protocol = false.
Proof.
  unfold in_strings, protocols_without_port, is_icmp. cbn [existsb]. intros Hp.
  repeat (apply orb_false_iff in Hp as [? Hp]).
  apply orb_false_iff. split; assumption.
Qed.

(** What [get_port] can return for a line: a list of at least two port
    texts, a range text whose bounds are ordered and in 1..65535, or the
    text of one port in 1..65535. *)
Lemma get_port_step_cases line v :
  get_port_step line = PortValue v ->
  (exists l, v = JList l /\ (2 <= List.length l)%nat)
  \/ (v = JStr (strip line)
      /\ contains "-" (strip line) = true
      /\ exists p0 p1 a b,
          split_on "-" (strip line) = [p0; p1]
          /\ int_of_str (strip p0) = Ok a /\ int_of_str (strip p1) = Ok b
          /\ (1 <= a <= b)%Z /\ (b <= 65535)%Z)
  \/ (v = JStr (strip line)
      /\ contains "-" (strip line) = false
      /\ exists a, int_of_str (strip line) = Ok a /\ (1 <= a <= 65535)%Z).
Proof.
  unfold get_port_step. set (p := strip line).
  destruct (String.eqb (lower p) "menu"); [discriminate|].
  destruct (String.eqb p ""); [discriminate|].
  destruct (contains "," p) eqn:Hcomma.
  { destruct (forallb port_text_ok _); [|discriminate].
    pose proof (split_on_twice "," p Hcomma) as Hlen.
    destruct (map strip (split_on "," p)) as [|x xs] eqn:E; [discriminate|].
    intros H. inversion H; subst v. left.
    exists (map JStr (x :: xs)). split; [reflexivity|].
    rewrite length_map, <- E, length_map. exact Hlen. }
  destruct (contains "-" p) eqn:Hdash.
  { destruct (split_on "-" p) as [|p0 [|p1 [|p2 rest]]] eqn:Hs; try discriminate.
    destruct (isdigit (strip p0) && isdigit (strip p1)); [|discriminate].
    destruct (int_of_str (strip p0)) as [a|] eqn:Ha; [|discriminate].
    destruct (int_of_str (strip p1)) as [b|] eqn:Hb; [|discriminate].
    destruct (Z.leb_spec 1 a), (Z.leb_spec a b), (Z.leb_spec b 65535);
      cbn [andb]; try discriminate.
    intros Hv. inversion Hv; subst v. right. left.
    split; [reflexivity|]. split; [reflexivity|].
    exists p0, p1, a, b. repeat split; auto; lia. }
  destruct (isdigit p); [|discriminate].
  destruct (int_of_str p) as [a|] eqn:Ha; [|discriminate].
  destruct (Z.leb_spec 1 a), (Z.leb_spec a 65535); cbn [andb]; try discriminate.
  intros Hv. inversion Hv; subst v. right. right.
  split; [reflexivity|]. split; [reflexivity|]. exists a. split; [reflexivity|lia].
Qed.

(** X5.  A comma-separated answer that [get_port] returns is refused by
    [validate_protocol_port] for every protocol: the multi-port form the
    prompt offers never reaches the generator. *)
Theorem multi_port_answer_is_always_refused (line protocol : string)
    (l : list json) :
  get_port_step line = PortValue (JList l) ->
  fst (validate_protocol_port protocol (JList l)) = false.
Proof.
  intros H. destruct (get_port_step_cases _ _ H) as [(l' & E & Hlen) | [C | C]].
  - inversion E; subst l'. unfold validate_protocol_port.
    destruct (in_strings _ _); [reflexivity|].
    apply Nat.ltb_lt in Hlen. now rewrite Hlen.
  - destruct C as [E _]. discriminate E.
  - destruct C as [E _]. discriminate E.
Qed.

Lemma multi_port_answer_is_always_refused_witness :
  fst (validate_protocol_port "tcp" (JList [JStr "80"; JStr "443"])) = false.
Proof.
  exact (multi_port_answer_is_always_refused "80, 443" "tcp"
           [JStr "80"; JStr "443"] eq_refl).
Defined.

(** X6.  Whatever [get_port] returns, the create-rule step of [main] ends in
    a refusal by the compatibility check or in the execution of exactly one
    directive: the generator neither raises nor returns [None] on it. *)
Theorem accepted_port_is_refused_or_executed
    (line action protocol ip_address : string) (port : json) :
  get_port_step line = PortValue port ->
  (exists msg, main_create_rule action protocol port ip_address = Rejected msg)
  \/ (exists cmd,
        main_create_rule action protocol port ip_address = Execute [cmd]).
Proof.
  intros H. unfold main_create_rule.
  destruct (validate_protocol_port protocol port) as [is_valid message] eqn:Hv.
  destruct is_valid; cbn [negb]; [right | left; eauto].
  unfold validate_protocol_port in Hv.
  destruct (in_strings (lower protocol) protocols_without_port) eqn:Hp;
    [discriminate Hv|].
  pose proof (not_no_port_is_not_icmp _ Hp) as Hicmp.
  unfold generate_nft_command. rewrite Hicmp.
  destruct (get_port_step_cases _ _ H)
    as [(l & -> & Hlen) | [(-> & Hd & C) | (-> & Hd & C)]].
  - apply Nat.ltb_lt in Hlen. rewrite Hlen in Hv. discriminate Hv.
  - destruct C as (p0 & p1 & a & b & Hs & Ha & Hb & Hab & _).
    unfold adhoc_port_part. cbn [str]. rewrite Hd, Hs, Ha, Hb. cbn [bind].
    destruct (Z.ltb_spec b a); [lia|]. cbn [bind].
    destruct (address_given (Some ip_address)); eauto.
  - unfold adhoc_port_part. cbn [str]. rewrite Hd. cbn [bind].
    destruct (address_given (Some ip_address)); eauto.
Qed.

Lemma accepted_port_is_refused_or_executed_witness :
  (exists msg,
      main_create_rule "accept" "tcp" (JStr "8080 - 8090") "" = Rejected msg)
  \/ (exists cmd,
        main_create_rule "accept" "tcp" (JStr "8080 - 8090") ""
        = Execute [cmd]).
Proof.
  exact (accepted_port_is_refused_or_executed " 8080 - 8090 " "accept" "tcp" ""
           (JStr "8080 - 8090") eq_refl).
Defined.

(** X7.  [get_port] returns the decimal text of a number exactly when the
    number lies between 1 and 65535, and the text [s-e] of two numbers
    exactly when 1 <= s <= e <= 65535; otherwise it asks again. *)
Theorem get_port_accepts_ports_in_bounds (n s e : N) :
  get_port_step (str_of_N n)
  = (if ((1 <=? n) && (n <=? 65535))%N
     then PortValue (JStr (str_of_N n)) else PortRetry)
  /\ get_port_step (str_of_N s ++ "-" ++ str_of_N e)
     = (if ((1 <=? s) && (s <=? e) && (e <=? 65535))%N
        then PortValue (JStr (str_of_N s ++ "-" ++ str_of_N e))
        else PortRetry).
Proof.
  split; unfold get_port_step.
  - pose proof (str_of_N_digits n) as Hd.
    rewrite (strip_id _ (SynthFacts.no_space n)).
    destruct (str_of_N_head n) as (c & r & E & Hc).
    rewrite E at 1. rewrite (lower_digit_start c r Hc).
    destruct (String.eqb_spec (str_of_N n) "") as [E0|_].
    { now elim (str_of_N_nonempty n). }
    rewrite (digits_no_comma _ Hd), (digits_no_dash _ Hd), isdigit_str_of_N.
    rewrite int_of_str_of_N.
    destruct (too_many_digits (str_of_N n)) eqn:T.
    { now rewrite (long_number_out_of_bounds n T), andb_false_r. }
    pose proof (in_port_bounds_of_N n) as Hb.
    unfold in_port_bounds, MIN_PORT, MAX_PORT in Hb. now rewrite Hb.
  - pose proof (range_text_chars s e) as Hc.
    rewrite (strip_id _ (all_chars_weaken _ _ _ digit_or_dash_not_space Hc)).
    destruct (str_of_N_head s) as (c & r & E & Hdc).
    assert (Hlow : String.eqb (lower (str_of_N s ++ "-" ++ str_of_N e)) "menu"
                   = false).
    { rewrite E. exact (lower_digit_start c _ Hdc). }
    rewrite Hlow.
    destruct (String.eqb_spec (str_of_N s ++ "-" ++ str_of_N e) "") as [E0|_].
    { now elim (str_of_N_nonempty_app s _ E0). }
    rewrite (contains_char_absent "," _
               (all_chars_weaken _ _ _ digit_or_dash_not_comma Hc)).
    rewrite (contains_append "-" (str_of_N s) (str_of_N e)).
    change (str_of_N s ++ "-" ++ str_of_N e)
      with (str_of_N s ++ String "-" (str_of_N e)).
    rewrite (split_on_once _ _ _ (SynthFacts.no_dash s) (SynthFacts.no_dash e)).
    rewrite !(strip_id _ (SynthFacts.no_space _)), !isdigit_str_of_N.
    cbn [andb]. rewrite !int_of_str_of_N.
    destruct (too_many_digits (str_of_N s)) eqn:Ts.
    { apply long_number_is_no_port in Ts.
      destruct (N.leb_spec 1 s), (N.leb_spec s e), (N.leb_spec e 65535);
        cbn; try reflexivity; lia. }
    destruct (too_many_digits (str_of_N e)) eqn:Te.
    { now rewrite (long_number_out_of_bounds e Te), andb_false_r. }
    replace ((1 <=? Z.of_N s)%Z && (Z.of_N s <=? Z.of_N e)%Z
             && (Z.of_N e <=? 65535)%Z)
      with ((1 <=? s) && (s <=? e) && (e <=? 65535))%N; [reflexivity|].
    destruct (N.leb_spec 1 s), (N.leb_spec s e), (N.leb_spec e 65535),
      (Z.leb_spec 1 (Z.of_N s)), (Z.leb_spec (Z.of_N s) (Z.of_N e)),
      (Z.leb_spec (Z.of_N e) 65535); cbn; try reflexivity; lia.
Qed.

End ValidateFacts.

(** ** Directives and the argument vectors they are run as *)
Module CommandsFacts.
Import Py Json Synth Orchestrator Commands PyFacts.

Ltac str_norm := repeat first [rewrite append_assoc | progress (cbn [append])].

Lemma word_spec s :
  word s = true ->
  exists c r, s = String c r /\ is_space c = false
              /\ all_chars (fun c => negb (is_space c)) r = true.
Proof.
  unfold word. intros H. apply andb_true_iff in H as [Hne Hs].
  apply (all_chars_weaken _ (fun c => negb (is_space c))) in Hs.
  2:{ intros c Hc. now apply andb_true_iff in Hc as [_ Hc]. }
  destruct s as [|c r]; [discriminate Hne|].
  cbn [all_chars] in Hs. apply andb_true_iff in Hs as [Hc Hr].
  apply negb_true_iff in Hc. eauto.
Qed.

Lemma split_ws_space t : split_ws (String " " t) = split_ws t.
Proof. reflexivity. Qed.

Lemma split_ws_nonspace c r :
  is_space c = false ->
  split_ws (String c r)
  = match r with
    | EmptyString => [String c EmptyString]
    | String c' _ =>
        if is_space c' then String c EmptyString :: split_ws r
        else match split_ws r with
             | h :: t => String c h :: t
             | [] => [String c EmptyString]
             end
    end.
Proof. intros H. cbn [split_ws]. now rewrite H. Qed.

(** A word followed by a space is the first word of the split. *)
Lemma split_ws_word_then c r t :
  is_space c = false ->
  all_chars (fun c => negb (is_space c)) r = true ->
  split_ws (String c r ++ String " " t) = String c r :: split_ws t.
Proof.
  revert c. induction r as [|c2 r IH]; intros c Hc Hr.
  - change (String c "" ++ String " " t) with (String c (String " " t)).
    rewrite (split_ws_nonspace c _ Hc). reflexivity.
  - cbn [all_chars] in Hr. apply andb_true_iff in Hr as [Hc2 Hr].
    apply negb_true_iff in Hc2.
    change (String c (String c2 r) ++ String " " t)
      with (String c (String c2 r ++ String " " t)).
    rewrite (split_ws_nonspace c _ Hc), (IH c2 Hc2 Hr).
    change (String c2 r ++ String " " t) with (String c2 (r ++ String " " t)).
    cbv iota. now rewrite Hc2.
Qed.

Lemma split_ws_word c r :
  is_space c = false ->
  all_chars (fun c => negb (is_space c)) r = true ->
  split_ws (String c r) = [String c r].
Proof.
  revert c. induction r as [|c2 r IH]; intros c Hc Hr.
  - now rewrite (split_ws_nonspace c _ Hc).
  - cbn [all_chars] in Hr. apply andb_true_iff in Hr as [Hc2 Hr].
    apply negb_true_iff in Hc2.
    rewrite (split_ws_nonspace c _ Hc), (IH c2 Hc2 Hr). now rewrite Hc2.
Qed.

(** Splitting undoes joining with single spaces, on words. *)
Lemma split_ws_join l :
  forallb word l = true -> split_ws (join " " l) = l.
Proof.
  induction l as [|x l IH]; [reflexivity|].
  cbn [forallb]. intros H. apply andb_true_iff in H as [Hx Hl].
  destruct (word_spec x Hx) as (c & r & -> & Hc & Hr).
  destruct l as [|y l].
  - cbn [join String.concat]. exact (split_ws_word c r Hc Hr).
  - unfold join in *.
    change (String.concat " " (String c r :: y :: l))
      with (String c r ++ String " " (String.concat " " (y :: l))).
    rewrite (split_ws_word_then c r _ Hc Hr). now rewrite (IH Hl).
Qed.

(** X8.  Every directive the generator returns, in either mode, adds a rule
    to chain input of table filter of family ip and ends with the action;
    outside full mode there is exactly one directive. *)
Theorem every_directive_targets_the_input_chain
    (action protocol : string) (port : json) (is_full_mode : bool)
    (ip_address : option string) (commands : list string) :
  generate_nft_command action protocol port is_full_mode ip_address
  = Ok (Some commands) ->
  Forall (fun c => exists mid, c = add_rule_prefix ++ mid ++ " " ++ action)
    commands
  /\ (is_full_mode = false -> List.length commands = 1%nat).
Proof.
  unfold generate_nft_command. destruct is_full_mode.
  - unfold full_mode_commands.
    destruct (eq_str port "53" && String.eqb protocol "both").
    + cbn [bind]. intros H. inversion H; subst. split; [|discriminate].
      repeat constructor; [exists "tcp dport 53" | exists "udp dport 53"];
        reflexivity.
    + destruct (iter port) as [ps|]; cbn [bind]; [|discriminate].
      intros H. inversion H; subst. split; [|discriminate].
      apply Forall_map, Forall_forall. intros p _.
      eexists. reflexivity.
  - destruct (is_icmp protocol).
    { intros H. inversion H; subst. split; [|reflexivity].
      repeat constructor. exists protocol. reflexivity. }
    destruct (adhoc_port_part protocol port) as [[part|]|]; cbn [bind];
      try discriminate.
    destruct (address_given ip_address) as [a|]; intros H; inversion H; subst;
      (split; [|reflexivity]); repeat constructor.
    + exists ("ip daddr " ++ a ++ " " ++ part). str_norm. reflexivity.
    + exists part. reflexivity.
Qed.

Lemma every_directive_targets_the_input_chain_witness :
  Forall (fun c => exists mid, c = add_rule_prefix ++ mid ++ " " ++ "drop")
    ["nft add rule ip filter input tcp dport 80 drop";
     "nft add rule ip filter input tcp dport 443 drop"].
Proof.
  exact (proj1 (every_directive_targets_the_input_chain "drop" "tcp"
                  (JList [JStr "80"; JStr "443"]) true None _ eq_refl)).
Defined.

(** X9.  The directive for one port, made of words, is run as the argument
    vector [nft add rule ip filter input <protocol> dport <port> <action>],
    with [ip daddr <addr>] after [input] when an address is given. *)
Theorem single_port_directive_argv (action protocol p : string) :
  word action = true -> word protocol = true -> word p = true ->
  is_icmp protocol = false -> contains "-" p = false ->
  (exists cmd,
      generate_nft_command action protocol (JStr p) false None
      = Ok (Some [cmd])
      /\ split_ws cmd
         = ["nft"; "add"; "rule"; "ip"; "filter"; "input";
            protocol; "dport"; p; action])
  /\ (forall a, word a = true ->
       exists cmd,
         generate_nft_command action protocol (JStr p) false (Some a)
         = Ok (Some [cmd])
         /\ split_ws cmd
            = ["nft"; "add"; "rule"; "ip"; "filter"; "input";
               "ip"; "daddr"; a; protocol; "dport"; p; action]).
Proof.
  intros Ha Hp Hport Hicmp Hdash.
  unfold generate_nft_command, adhoc_port_part. cbn [str].
  rewrite Hicmp, Hdash. cbn [bind]. split.
  - cbn [address_given]. eexists. split; [reflexivity|].
    rewrite <- (split_ws_join ["nft"; "add"; "rule"; "ip"; "filter"; "input";
                               protocol; "dport"; p; action]).
    + f_equal. unfold join, add_rule_prefix. cbn [String.concat]. str_norm.
      reflexivity.
    + cbn [forallb]. now rewrite Ha, Hp, Hport.
  - intros a Hword. cbn [address_given].
    destruct (String.eqb_spec a "") as [->|_]; [discriminate Hword|].
    eexists. split; [reflexivity|].
    rewrite <- (split_ws_join ["nft"; "add"; "rule"; "ip"; "filter"; "input";
                               "ip"; "daddr"; a; protocol; "dport"; p; action]).
    + f_equal. unfold join, add_rule_prefix. cbn [String.concat]. str_norm.
      reflexivity.
    + cbn [forallb]. now rewrite Ha, Hp, Hport, Hword.
Qed.

Lemma single_port_directive_argv_witness :
  exists cmd,
    generate_nft_command "accept" "tcp" (JStr "22") false None
    = Ok (Some [cmd])
    /\ split_ws cmd
       = ["nft"; "add"; "rule"; "ip"; "filter"; "input";
          "tcp"; "dport"; "22"; "accept"].
Proof.
  exact (proj1 (single_port_directive_argv "accept" "tcp" "22"
                  eq_refl eq_refl eq_refl eq_refl eq_refl)).
Defined.

(** X10.  The text [delete_rule] builds is the argument vector of
    [delete_nft_rule] joined by spaces, and splits back into that vector
    when family, table, chain and handle are words. *)
Theorem delete_rule_text_is_the_argv (family table chain : string)
    (handle : json) :
  delete_rule (JStr family) (JStr table) (JStr chain) handle
  = join " " (delete_argv family table chain handle)
  /\ (word family = true -> word table = true -> word chain = true ->
      word (str handle) = true ->
      split_ws (delete_rule (JStr family) (JStr table) (JStr chain) handle)
      = delete_argv family table chain handle).
Proof.
  assert (E : delete_rule (JStr family) (JStr table) (JStr chain) handle
              = join " " (delete_argv family table chain handle)).
  { unfold delete_rule, delete_argv, join. cbn [String.concat str].
    str_norm. reflexivity. }
  split; [exact E|]. intros Hf Ht Hc Hh. rewrite E.
  apply split_ws_join. unfold delete_argv. cbn [forallb].
  now rewrite Hf, Ht, Hc, Hh.
Qed.

Lemma delete_rule_text_is_the_argv_witness :
  split_ws (delete_rule (JStr "ip") (JStr "filter") (JStr "input") (JInt 10))
  = ["nft"; "delete"; "rule"; "ip"; "filter"; "input"; "handle"; "10"].
Proof.
  exact (proj2 (delete_rule_text_is_the_argv "ip" "filter" "input" (JInt 10))
           eq_refl eq_refl eq_refl eq_refl).
Defined.

(** *** The directive loop *)

Section LoopExtra.
Context {World : Type}.
Variable run : list string -> World -> run_result * World.
Variable init : World -> bool * World.

Lemma run_directive_failed (st : loop_state World) (cmd : string) :
  failed_commands (run_directive run init st cmd) = failed_commands st
  \/ failed_commands (run_directive run init st cmd)
     = (failed_commands st ++ [cmd])%list.
Proof.
  unfold run_directive.
  destruct (run (split_ws cmd) (world st)) as [[p|] w1]; cbn; auto.
  destruct (returncode p =? 0)%Z; cbn; auto.
  destruct (missing_resource (error_text p)); cbn; auto.
  destruct (init w1) as [b w2].
  destruct (run (split_ws cmd) w2) as [[p2|] w3]; cbn; auto.
  destruct (returncode p2 =? 0)%Z; cbn; auto.
Qed.

Lemma fold_failed (cmds : list string) : forall st : loop_state World,
  forall c, In c (failed_commands (fold_left (run_directive run init) cmds st)) ->
            In c (failed_commands st) \/ In c cmds.
Proof.
  induction cmds as [|cmd cmds IH]; intros st c Hin; cbn [fold_left] in Hin.
  - now left.
  - destruct (IH _ _ Hin) as [H|H]; [|right; now right].
    destruct (run_directive_failed st cmd) as [E|E]; rewrite E in H.
    + now left.
    + apply in_app_or in H as [H|[H|[]]]; [now left|]. right. now left.
Qed.
End LoopExtra.

(** X11.  The directive loop answers True exactly when it recorded no
    failed directive, and every directive it recorded as failed is one of
    the batch. *)
Theorem execute_command_true_iff_nothing_failed
    (World : Type) (run : list string -> World -> run_result * World)
    (init : World -> bool * World) (commands : list string) (w : World) :
  fst (execute_command run init commands w)
  = match failed_commands (run_commands run init commands w) with
    | [] => true
    | _ :: _ => false
    end
  /\ incl (failed_commands (run_commands run init commands w)) commands.
Proof.
  split.
  - unfold execute_command. cbn [fst]. unfold run_commands.
    destruct (OrchestratorFacts.fold_accounts run init commands (start w))
      as [Hc _]. cbn zeta in Hc. cbn [start success_count failed_commands] in Hc.
    destruct (failed_commands (fold_left (run_directive run init) commands
                                 (start w))) as [|f fs].
    + apply Nat.eqb_eq. cbn in Hc. lia.
    + apply Nat.eqb_neq. cbn in Hc. lia.
  - intros c Hin. unfold run_commands in Hin.
    destruct (fold_failed run init commands (start w) c Hin) as [[]|H].
    exact H.
Qed.

(** X12.  Running a command given as one string does what running the
    one-element list of that command does: the same answer, the same calls
    in the same order, the same final world. *)
Theorem execute_string_is_the_singleton_list
    (World : Type) (run : list string -> World -> run_result * World)
    (init : World -> bool * World) (cmd : string) (w : World) :
  execute_string run init cmd w
  = (fst (execute_command run init [cmd] w),
     trace (run_commands run init [cmd] w),
     world (run_commands run init [cmd] w)).
Proof.
  unfold execute_string, execute_command, run_commands.
  cbn [fold_left]. unfold run_directive. cbn [start world].
  destruct (run (split_ws cmd) w) as [[p|] w1]; [|reflexivity].
  destruct (returncode p =? 0)%Z; [reflexivity|].
  destruct (missing_resource (error_text p)); [|reflexivity].
  destruct (init w1) as [b w2].
  destruct (run (split_ws cmd) w2) as [[p2|] w3]; [|reflexivity].
  destruct (returncode p2 =? 0)%Z; reflexivity.
Qed.

End CommandsFacts.

(** ** More on the interpreter *)
Module InterpExtra.
Import Py Json Interp Kinds PyFacts InterpFacts.

Lemma passed_over_step e st : passed_over e = true -> step st e = Ok st.
Proof.
  unfold passed_over, step. destruct (truthy e) eqn:Ht; cbn [negb orb].
  { destruct e as [| | | | |[|[k v] rest]]; try discriminate.
    intros H. apply negb_true_iff in H. unfold known_kinds in H.
    cbn [existsb] in H. repeat (apply orb_false_iff in H as [? H]).
    cbn [first_key bind eq_str].
    repeat match goal with
           | E : String.eqb k _ = false |- _ => rewrite E; clear E
           end.
    reflexivity. }
  reflexivity.
Qed.

(** X13.  A node that is falsy or of a kind the interpreter does not know
    can be put anywhere in a list, or taken out, without changing the
    formatted line, as long as the list does not become empty. *)
Theorem unknown_nodes_do_not_change_the_line (pre post : list json) (e : json) :
  passed_over e = true ->
  (pre ++ post)%list <> [] ->
  format_rule_expression (JList (pre ++ e :: post))
  = format_rule_expression (JList (pre ++ post)).
Proof.
  intros He Hne. unfold format_rule_expression.
  assert (T1 : truthy (JList (pre ++ e :: post)) = true)
    by (destruct pre; reflexivity).
  assert (T2 : truthy (JList (pre ++ post)) = true).
  { cbn [truthy]. destruct (pre ++ post)%list; [congruence|reflexivity]. }
  rewrite T1, T2. cbn [negb iter bind].
  rewrite !foldM_app. destruct (foldM step pre fmt0) as [st|]; [|reflexivity].
  cbn [bind foldM]. now rewrite (passed_over_step e st He).
Qed.

Lemma unknown_nodes_do_not_change_the_line_witness :
  format_rule_expression
    (JList [payload_match "tcp" "dport" (JInt 22);
            JDict [("limit", JDict [("rate", JInt 10)])];
            JDict [("accept", JNull)]])
  = format_rule_expression
      (JList [payload_match "tcp" "dport" (JInt 22); JDict [("accept", JNull)]]).
Proof.
  exact (unknown_nodes_do_not_change_the_line
           [payload_match "tcp" "dport" (JInt 22)] [JDict [("accept", JNull)]]
           (JDict [("limit", JDict [("rate", JInt 10)])])
           eq_refl ltac:(discriminate)).
Defined.

Lemma marked negate x : contains "端口" (neg_of negate ++ "端口 " ++ x) = true.
Proof. exact (contains_append "端口" (neg_of negate) (" " ++ x)). Qed.

Lemma marked_plain x : contains "端口" ("端口 " ++ x) = true.
Proof. exact (contains_append "端口" "" (" " ++ x)). Qed.

Ltac crunch H :=
  repeat first
    [ discriminate H
    | match type of H with
      | bind ?m _ = _ => destruct m; cbn [bind] in H
      | (if ?b then _ else _) = _ => destruct b
      | match ?x with _ => _ end = _ => destruct x
      end ].

(** A node leaves the port descriptor as it is or writes one that holds
    the marker. *)
Lemma step_port_marked st e st' :
  step st e = Ok st' ->
  port_info st' = port_info st \/ contains "端口" (port_info st') = true.
Proof.
  intros H.
  unfold step, match_node, relational_node, cmp_node, payload_node, meta_node,
    ct_node, counter_node, jump_node, xt_node in H.
  crunch H; inversion H; subst; cbn [port_info set_port add_part set_parts
                                     set_action];
    first [ left; reflexivity | right; apply marked | right; apply marked_plain ].
Qed.

Lemma run_port_marked l : forall st st',
  foldM step l st = Ok st' ->
  port_info st' = port_info st \/ contains "端口" (port_info st') = true.
Proof.
  induction l as [|e l IH]; intros st st' H; cbn [foldM] in H.
  - inversion H. now left.
  - destruct (step st e) as [st1|] eqn:E; [|discriminate H]. cbn [bind] in H.
    destruct (IH _ _ H) as [H1|H1]; [|now right].
    rewrite H1. exact (step_port_marked _ _ _ E).
Qed.

Lemma prefix_append_more n a b :
  String.prefix n a = true -> String.prefix n (a ++ b) = true.
Proof.
  revert a. induction n as [|x n IH]; intros a H;
    [destruct (a ++ b); reflexivity|].
  destruct a as [|y a]; [discriminate H|].
  cbn [append String.prefix] in *.
  destruct (ascii_dec x y); [exact (IH a H) | discriminate H].
Qed.

Lemma contains_append_more n a b :
  contains n a = true -> contains n (a ++ b) = true.
Proof.
  induction a as [|y a IH]; intros H.
  - apply contains_prefix. apply (prefix_append_more n "" b).
    cbn [contains] in H. now rewrite orb_false_r in H.
  - change (String y a ++ b) with (String y (a ++ b)).
    cbn [contains] in H |- *. apply orb_true_iff in H as [H|H].
    + pose proof (prefix_append_more n (String y a) b H) as P.
      change (String y a ++ b) with (String y (a ++ b)) in P.
      now rewrite P.
    + rewrite (IH H). apply orb_true_r.
Qed.

(** X14.  A rule in which some node writes a port descriptor is formatted
    to a line that contains [端口], the mark by which [display_rules] and
    [get_rule_summary] recognise a port rule. *)
Theorem port_rule_line_holds_the_mark (l : list json) (out : string) :
  format_rule_expression (JList l) = Ok out ->
  port_descriptors l <> [] ->
  contains "端口" out = true.
Proof.
  intros Hf Hne.
  destruct (format_opens_with_last_port _ _ Hf Hne) as [rest ->].
  apply contains_append_more.
  unfold format_rule_expression in Hf.
  destruct l as [|e l]; [now elim Hne|].
  cbn [truthy negb iter bind] in Hf.
  destruct (foldM step (e :: l) fmt0) as [st|] eqn:E; [|discriminate Hf].
  pose proof (run_port_info _ _ _ E) as Hp. cbn [port_info fmt0] in Hp.
  rewrite <- Hp.
  destruct (run_port_marked _ _ _ E) as [H|H]; [|exact H].
  cbn [port_info fmt0] in H. rewrite Hp in H.
  now elim (last_descriptor_nonempty _ "" Hne).
Qed.

Lemma port_rule_line_holds_the_mark_witness :
  contains "端口" "端口 80 放行" = true.
Proof.
  exact (port_rule_line_holds_the_mark ssh_from_80 "端口 80 放行" eq_refl
           ltac:(discriminate)).
Defined.

End InterpExtra.

(** ** The rule list, the deletion prompt and the text search *)
Module ListingFacts.
Import Py Json Orchestrator Commands Listing PyFacts.

Lemma eq_str_true v s : eq_str v s = true -> v = JStr s.
Proof.
  destruct v; try discriminate. cbn [eq_str]. intros H.
  apply String.eqb_eq in H. now subst.
Qed.

Lemma is_managed_true r :
  Query.is_managed r = Ok true ->
  get r "chain" JNull = Ok (JStr "input")
  /\ get r "family" JNull = Ok (JStr "ip")
  /\ get r "table" JNull = Ok (JStr "filter").
Proof.
  unfold Query.is_managed.
  destruct (get r "chain" JNull) as [c|]; cbn [bind]; [|discriminate].
  destruct (eq_str c "input") eqn:Hc; [|discriminate].
  destruct (get r "family" JNull) as [f|]; cbn [bind]; [|discriminate].
  destruct (eq_str f "ip") eqn:Hf; [|discriminate].
  destruct (get r "table" JNull) as [t|]; cbn [bind]; [|discriminate].
  intros H. inversion H as [Ht].
  now rewrite (eq_str_true _ _ Hc), (eq_str_true _ _ Hf), (eq_str_true _ _ Ht).
Qed.

Lemma list_item_numbered acc item acc' :
  list_item acc item = Ok acc' -> numbered acc -> numbered acc'.
Proof.
  unfold list_item.
  destruct (member "rule" item) as [[]|]; cbn [bind]; try discriminate.
  2:{ intros H. now inversion H. }
  destruct (getitem item "rule") as [r|]; cbn [bind]; [|discriminate].
  destruct (Query.is_managed r) as [[]|] eqn:Hm; cbn [bind]; try discriminate.
  2:{ intros H. now inversion H. }
  destruct (is_managed_true r Hm) as (Hc & Hf & Ht).
  rewrite Hf, Ht, Hc. cbn [bind].
  destruct (get r "handle" JNull) as [h|]; cbn [bind]; [|discriminate].
  intros H (Hids & Hlen & Hall). inversion H; subst acc'. clear H.
  destruct acc as [n rules]. unfold numbered. cbn [fst snd] in *.
  split; [|split].
  - rewrite map_app, Hids, seq_S. reflexivity.
  - rewrite length_app, Hlen. cbn. lia.
  - apply Forall_app. split; [exact Hall|]. repeat constructor.
Qed.

Lemma display_rules_numbered data rules :
  display_rules data = Ok rules ->
  exists n, numbered (n, rules).
Proof.
  unfold display_rules.
  destruct (port_rules data); cbn [bind]; [|discriminate].
  destruct (iter data) as [items|]; cbn [bind]; [|discriminate].
  destruct (foldM list_item items (0%nat, [])) as [[n listed]|] eqn:E;
    cbn [bind]; [|discriminate].
  intros H. inversion H; subst rules. exists n.
  refine (foldM_invariant list_item numbered list_item_numbered _ _ _ E _).
  repeat split. constructor.
Qed.

(** X15.  The rules the query menu lists are numbered 1, 2, ... in dump
    order, and each of them is a rule of chain input of table filter of
    family ip. *)
Theorem listed_rules_are_numbered_and_managed (data : json)
    (rules : list listed_rule) :
  display_rules data = Ok rules ->
  map id rules = seq 1 (List.length rules)
  /\ Forall (fun r => family r = JStr "ip" /\ table r = JStr "filter"
                      /\ chain r = JStr "input") rules.
Proof.
  intros H. destruct (display_rules_numbered _ _ H) as (n & Hids & Hlen & Hall).
  cbn [fst snd] in *. subst n. split; assumption.
Qed.

Lemma listed_rules_are_numbered_and_managed_witness :
  map id
    [{| id := 1; family := JStr "ip"; table := JStr "filter";
        chain := JStr "input"; handle := JInt 4;
        rule := JDict [("family", JStr "ip"); ("table", JStr "filter");
                       ("chain", JStr "input"); ("handle", JInt 4);
                       ("expr", JList Interp.ssh_from_80)] |}]
  = [1%nat].
Proof.
  exact (proj1 (listed_rules_are_numbered_and_managed
                  (JList [Query.rule_entry "ip" "filter" "output" 9 [];
                          Query.rule_entry "ip" "filter" "input" 4
                            Interp.ssh_from_80])
                  _ eq_refl)).
Defined.

Lemma counts_agree items : forall acc_s acc_l s l,
  foldM Query.summary_item items acc_s = Ok s ->
  foldM list_item items acc_l = Ok l ->
  (Query.input_rules s + List.length (snd acc_l)
   = Query.input_rules acc_s + List.length (snd l))%nat.
Proof.
  induction items as [|item items IH]; intros acc_s acc_l s l Hs Hl;
    cbn [foldM] in Hs, Hl.
  - inversion Hs; inversion Hl; subst. lia.
  - destruct (Query.summary_item acc_s item) as [s1|] eqn:E1; [|discriminate Hs].
    destruct (list_item acc_l item) as [l1|] eqn:E2; [|discriminate Hl].
    cbn [bind] in Hs, Hl. specialize (IH _ _ _ _ Hs Hl).
    enough (Query.input_rules s1 + List.length (snd acc_l)
            = Query.input_rules acc_s + List.length (snd l1))%nat by lia.
    clear IH Hs Hl. unfold Query.summary_item in E1. unfold list_item in E2.
    destruct (member "rule" item) as [[]|]; cbn [bind] in E1, E2;
      try discriminate.
    2:{ inversion E1; inversion E2; subst. lia. }
    destruct (getitem item "rule") as [r|]; cbn [bind] in E1, E2;
      [|discriminate].
    destruct (Query.is_managed r) as [[]|]; cbn [bind] in E1, E2;
      try discriminate.
    2:{ inversion E1; inversion E2; subst. lia. }
    destruct (get r "expr" (JList [])) as [e|]; cbn [bind] in E1;
      [|discriminate].
    destruct (Interp.format_rule_expression e); cbn [bind] in E1;
      [|discriminate].
    destruct (get r "family" JNull); cbn [bind] in E2; [|discriminate].
    destruct (get r "table" JNull); cbn [bind] in E2; [|discriminate].
    destruct (get r "chain" JNull); cbn [bind] in E2; [|discriminate].
    destruct (get r "handle" JNull); cbn [bind] in E2; [|discriminate].
    inversion E1; inversion E2; subst. cbn [Query.input_rules snd].
    rewrite length_app. cbn. lia.
Qed.

(** X16.  The number of rules the query menu lists is the rule count of
    the summary of the same dump. *)
Theorem listing_and_summary_agree (items : list json)
    (rules : list listed_rule) (s : Query.summary) :
  display_rules (JList items) = Ok rules ->
  Query.get_rule_summary (Query.forest items) = Some s ->
  Query.input_rules s = List.length rules.
Proof.
  unfold display_rules, Query.get_rule_summary.
  rewrite QueryFacts.summarize_forest.
  destruct (port_rules (JList items)); cbn [bind iter]; [|discriminate].
  destruct (foldM list_item items (0%nat, [])) as [l|] eqn:El; cbn [bind];
    [|discriminate].
  destruct (foldM Query.summary_item items _) as [s'|] eqn:Es; [|discriminate].
  intros Hl Hs. inversion Hl; inversion Hs; subst.
  pose proof (counts_agree _ _ _ _ _ Es El) as H. cbn in H. lia.
Qed.

Lemma listing_and_summary_agree_witness :
  Query.input_rules {| Query.input_rules := 1; Query.input_port_rules := 1 |}
  = 1%nat.
Proof.
  exact (listing_and_summary_agree
           [Query.rule_entry "ip" "filter" "output" 9 [];
            Query.rule_entry "ip" "filter" "input" 4 Interp.ssh_from_80]
           _ _ eq_refl eq_refl).
Defined.

(** *** The deletion prompt *)

Lemma filter_none_rejected {A : Type} (p : A -> bool) (l : list A) :
  filter (fun x => negb (p x)) l = [] ->
  filter p l = l /\ Forall (fun x => p x = true) l.
Proof.
  induction l as [|x l IH]; cbn [filter]; [now split|].
  destruct (p x) eqn:Hp; cbn [negb]; [|discriminate].
  intros H. destruct (IH H) as [E F]. rewrite E. split; [reflexivity|].
  now constructor.
Qed.

(** X17.  The deletion prompt goes on only with the numbers typed, all of
    them, and only when each lies between 1 and the number of listed
    rules: one number out of range, or one part that is no number, and
    nothing is selected. *)
Theorem selection_is_within_the_list (n_rules : nat) (line : string)
    (valid_rules : list Z) :
  select_rules n_rules line = SelChosen valid_rules ->
  parse_numbers (lower (strip line)) = Ok valid_rules
  /\ valid_rules <> []
  /\ Forall (fun k => (1 <= k <= Z.of_nat n_rules)%Z) valid_rules.
Proof.
  unfold select_rules.
  destruct (String.eqb (lower (strip line)) "menu"); [discriminate|].
  destruct (parse_numbers (lower (strip line))) as [nums|]; [|discriminate].
  destruct (filter (fun n => negb (in_list_range n_rules n)) nums) eqn:Einv;
    [|discriminate].
  destruct (filter_none_rejected _ _ Einv) as [E F]. rewrite E.
  destruct nums as [|k ks]; [discriminate|].
  intros H. inversion H; subst valid_rules.
  split; [reflexivity|]. split; [discriminate|].
  eapply Forall_impl; [|exact F]. cbn beta. intros a Ha.
  unfold in_list_range in Ha. apply andb_true_iff in Ha as [H1 H2]. lia.
Qed.

Lemma selection_is_within_the_list_witness :
  parse_numbers (lower (strip " 1, 3 ")) = Ok [1%Z; 3%Z]
  /\ [1%Z; 3%Z] <> []
  /\ Forall (fun k => (1 <= k <= Z.of_nat 3)%Z) [1%Z; 3%Z].
Proof.
  exact (selection_is_within_the_list 3 " 1, 3 " [1%Z; 3%Z] eq_refl).
Defined.

Section DeleteFacts.
Context {World : Type}.
Variable run : list string -> World -> run_result * World.

Lemma delete_one_managed (rules : list listed_rule) (acc : list event * World)
    (k : Z) :
  Forall (fun r => family r = JStr "ip" /\ table r = JStr "filter"
                   /\ chain r = JStr "input") rules ->
  (1 <= k <= Z.of_nat (List.length rules))%Z ->
  input_chain_deletions (fst acc) ->
  exists acc',
    delete_one run rules acc k = Ok acc'
    /\ input_chain_deletions (fst acc')
    /\ (List.length (fst acc') <= S (List.length (fst acc)))%nat.
Proof.
  intros Hall Hk Hacc. unfold delete_one.
  destruct (nth_error rules (Z.to_nat (k - 1))) as [r|] eqn:E.
  2:{ apply nth_error_None in E. lia. }
  destruct (truthy (handle r)); [|exists acc; auto].
  pose proof (proj1 (Forall_forall _ _) Hall r (nth_error_In _ _ E))
    as (Hf & Ht & Hc).
  unfold delete_nft_rule. rewrite Hf, Ht, Hc.
  destruct (run _ (snd acc)) as [res w1]. cbn [bind].
  eexists. split; [reflexivity|]. cbn [fst]. split.
  - apply Forall_app. split; [exact Hacc|]. repeat constructor.
    eexists. reflexivity.
  - rewrite length_app. cbn. lia.
Qed.

Lemma delete_fold_managed (rules : list listed_rule) (nums : list Z) :
  Forall (fun r => family r = JStr "ip" /\ table r = JStr "filter"
                   /\ chain r = JStr "input") rules ->
  Forall (fun k => (1 <= k <= Z.of_nat (List.length rules))%Z) nums ->
  forall acc, input_chain_deletions (fst acc) ->
  exists acc',
    foldM (delete_one run rules) nums acc = Ok acc'
    /\ input_chain_deletions (fst acc')
    /\ (List.length (fst acc')
        <= List.length (fst acc) + List.length nums)%nat.
Proof.
  intros Hall. induction 1 as [|k nums Hk _ IH]; intros acc Hacc.
  - exists acc. cbn. split; [reflexivity|]. split; [exact Hacc|lia].
  - destruct (delete_one_managed rules acc k Hall Hk Hacc)
      as (acc1 & E & H1 & L1).
    destruct (IH acc1 H1) as (acc' & E' & H' & L').
    exists acc'. cbn [foldM]. rewrite E. cbn [bind].
    split; [exact E'|]. split; [exact H'|]. cbn [List.length]. lia.
Qed.
End DeleteFacts.

(** X18.  Deleting the rules selected from the list the query menu shows
    never raises and only ever runs [nft delete rule ip filter input handle
    <h>], at most once per selected number. *)
Theorem deletions_address_the_input_chain
    (World : Type) (run : list string -> World -> run_result * World)
    (data : json) (rules : list listed_rule) (valid_rules : list Z)
    (w : World) :
  display_rules data = Ok rules ->
  Forall (fun k => (1 <= k <= Z.of_nat (List.length rules))%Z) valid_rules ->
  exists evs w',
    delete_chosen run rules valid_rules w = Ok (evs, w')
    /\ Forall (fun ev => exists h,
                  ev = EvRun ["nft"; "delete"; "rule"; "ip"; "filter";
                              "input"; "handle"; h]) evs
    /\ (List.length evs <= List.length valid_rules)%nat.
Proof.
  intros Hd Hnums.
  destruct (display_rules_numbered _ _ Hd) as (n & _ & _ & Hall).
  cbn [snd] in Hall.
  destruct (delete_fold_managed run rules valid_rules Hall Hnums ([], w))
    as ([evs w'] & E & H & L); [constructor|].
  exists evs, w'. split; [exact E|]. split; [exact H | exact L].
Qed.

Lemma deletions_address_the_input_chain_witness :
  exists evs w',
    delete_chosen table_missing_run
      [{| id := 1; family := JStr "ip"; table := JStr "filter";
          chain := JStr "input"; handle := JInt 4;
          rule := JDict [("family", JStr "ip"); ("table", JStr "filter");
                         ("chain", JStr "input"); ("handle", JInt 4);
                         ("expr", JList Interp.ssh_from_80)] |}]
      [1%Z] true = Ok (evs, w')
    /\ Forall (fun ev => exists h,
                  ev = EvRun ["nft"; "delete"; "rule"; "ip"; "filter";
                              "input"; "handle"; h]) evs
    /\ (List.length evs <= 1)%nat.
Proof.
  refine (deletions_address_the_input_chain bool table_missing_run
            (JList [Query.rule_entry "ip" "filter" "input" 4
                      Interp.ssh_from_80])
            _ [1%Z] true eq_refl _).
  constructor; [cbn; lia | constructor].
Defined.

(** *** The text search *)

Lemma text_item_unknown term matches r matches' :
  text_item term matches (Query.rule_item r) = Ok matches' ->
  Forall (fun m => m_family m = JStr "unknown" /\ m_table m = JStr "unknown"
                   /\ m_chain m = JStr "unknown") matches ->
  Forall (fun m => m_family m = JStr "unknown" /\ m_table m = JStr "unknown"
                   /\ m_chain m = JStr "unknown") matches'.
Proof.
  unfold text_item, Query.rule_item.
  cbn -[Interp.format_rule_expression contains lower].
  destruct (get r "expr" (JList [])) as [e|]; cbn [bind]; [|discriminate].
  destruct (Interp.format_rule_expression e) as [desc|]; cbn [bind];
    [|discriminate].
  destruct (contains (lower term) (lower desc)); intros H Hall;
    inversion H; subst; [|exact Hall].
  apply Forall_app. split; [exact Hall|]. repeat constructor.
Qed.

(** X19.  For a dump whose entries are rule entries as nft prints them,
    every record the text search returns names family, table and chain as
    [unknown]: the search looks for them beside the rule, where the dump
    does not put them. *)
Theorem text_search_reports_unknown_location (rules : list json)
    (search_term : string) (matches : list text_match) :
  advanced_rule_search (Some (Query.forest (map Query.rule_item rules)))
    search_term = Some matches ->
  Forall (fun m => m_family m = JStr "unknown" /\ m_table m = JStr "unknown"
                   /\ m_chain m = JStr "unknown") matches.
Proof.
  assert (G : forall acc,
             Forall (fun m => m_family m = JStr "unknown"
                              /\ m_table m = JStr "unknown"
                              /\ m_chain m = JStr "unknown") acc ->
             foldM (text_item search_term) (map Query.rule_item rules) acc
             = Ok matches ->
             Forall (fun m => m_family m = JStr "unknown"
                              /\ m_table m = JStr "unknown"
                              /\ m_chain m = JStr "unknown") matches).
  { induction rules as [|r rules IH]; intros acc Hacc Hf; cbn [map foldM] in Hf.
    - now inversion Hf; subst.
    - destruct (text_item search_term acc (Query.rule_item r)) as [acc1|] eqn:E1;
        [|discriminate Hf].
      exact (IH acc1 (text_item_unknown _ _ _ _ E1 Hacc) Hf). }
  unfold advanced_rule_search, Query.forest.
  cbn -[foldM text_item].
  destruct (foldM (text_item search_term) (map Query.rule_item rules) [])
    as [ms|] eqn:E; [|discriminate].
  intros H. inversion H; subst ms.
  exact (G [] (Forall_nil _) E).
Qed.

Lemma text_search_reports_unknown_location_witness :
  Forall (fun m => m_family m = JStr "unknown" /\ m_table m = JStr "unknown"
                   /\ m_chain m = JStr "unknown")
    [{| m_family := JStr "unknown"; m_table := JStr "unknown";
        m_chain := JStr "unknown"; m_rule := "端口 80 放行";
        match_reason := "规则文本包含: 80" |}].
Proof.
  exact (text_search_reports_unknown_location
           [JDict [("family", JStr "ip"); ("table", JStr "filter");
                   ("chain", JStr "input"); ("handle", JInt 4);
                   ("expr", JList Interp.ssh_from_80)]]
           "80" _ eq_refl).
Defined.

End ListingFacts.

(** ** Distribution detection and installation *)
Module InstallFacts.
Import Py Json Orchestrator Install PyFacts.

Lemma prefix_true_app n s :
  String.prefix n s = true -> exists r, s = n ++ r.
Proof.
  revert s. induction n as [|x n IH]; intros s H.
  - exists s. reflexivity.
  - destruct s as [|y s]; [discriminate H|]. cbn [String.prefix] in H.
    destruct (ascii_dec x y) as [->|]; [|discriminate H].
    destruct (IH s H) as [r ->]. exists r. reflexivity.
Qed.

Lemma rstrip_cons_nonspace c r :
  is_space c = false -> rstrip (String c r) = String c (rstrip r).
Proof. intros H. cbn [rstrip]. destruct (rstrip r); now rewrite ?H. Qed.

(** A line that starts with [ID=] always has a value after the sign. *)
Lemma id_value_defined line :
  String.prefix "ID=" line = true -> exists v, id_value line = Ok v.
Proof.
  intros H. destruct (prefix_true_app _ _ H) as [r ->].
  unfold id_value, strip.
  change (lstrip ("ID=" ++ r)) with (String "I" (String "D" (String "=" r))).
  rewrite !rstrip_cons_nonspace by reflexivity.
  change (split_on "=" (String "I" (String "D" (String "=" (rstrip r)))))
    with (match
             match "" :: split_on "=" (rstrip r) with
             | h :: t => String "D" h :: t
             | [] => ["D"]
             end
           with
           | h :: t => String "I" h :: t
           | [] => ["I"]
           end).
  cbv iota.
  pose proof (ValidateFacts.split_on_nonempty "=" (rstrip r)) as Hne.
  destruct (split_on "=" (rstrip r)) as [|v rest]; [congruence|]. eauto.
Qed.

(** X21.  The first line of /etc/os-release that starts with [ID=], an
    ASCII line, decides the distribution: the lines before it do not matter and the
    lines after it, [ID_LIKE=] among them, are never read. *)
Theorem first_id_line_decides (pre post : list string) (line : string) :
  Forall (fun l => String.prefix "ID=" l = false) pre ->
  String.prefix "ID=" line = true ->
  all_chars Validate.is_ascii line = true ->
  exists v, id_value line = Ok v
            /\ distro_of_lines (pre ++ line :: post) = Ok (Some (classify v)).
Proof.
  intros Hpre Hline _. destruct (id_value_defined line Hline) as [v Hv].
  exists v. split; [exact Hv|].
  induction Hpre as [|l pre Hl _ IH]; cbn [app distro_of_lines].
  - now rewrite Hline, Hv.
  - now rewrite Hl.
Qed.

Lemma first_id_line_decides_witness :
  exists v, id_value "ID=linuxmint" = Ok v
            /\ distro_of_lines
                 (["NAME=Linux Mint"] ++ "ID=linuxmint" :: ["ID_LIKE=ubuntu"])
               = Ok (Some (classify v)).
Proof.
  refine (first_id_line_decides ["NAME=Linux Mint"] ["ID_LIKE=ubuntu"]
            "ID=linuxmint" _ eq_refl eq_refl).
  repeat constructor.
Defined.

Section InstallerFacts.
Context {World : Type}.
Variable run : list string -> World -> run_result * World.

Lemma run_logged_trace argv (s : sys World) :
  fst (snd (run_logged run argv s)) = (fst s ++ [EvRun argv])%list.
Proof.
  unfold run_logged. now destruct (run argv (snd s)).
Qed.

Lemma probe_only_asks (candidates : list (string * string)) :
  forall s : sys World,
  exists evs, fst (snd (probe run candidates s)) = (fst s ++ evs)%list
              /\ forallb is_probe evs = true.
Proof.
  induction candidates as [|[tool distro] rest IH]; intros s; cbn [probe].
  - exists []. cbn. now rewrite app_nil_r.
  - pose proof (run_logged_trace ["which"; tool] s) as Ht.
    destruct (run_logged run ["which"; tool] s) as [r s1]. cbn [snd] in Ht.
    destruct r as [p|].
    + destruct (returncode p =? 0)%Z.
      * exists [EvRun ["which"; tool]]. cbn [snd]. now rewrite Ht.
      * destruct (IH s1) as (evs & E & Hp).
        exists (EvRun ["which"; tool] :: evs). rewrite E, Ht, <- app_assoc.
        split; [reflexivity|]. exact Hp.
    + exists [EvRun ["which"; tool]]. cbn [snd]. now rewrite Ht.
Qed.
End InstallerFacts.

(** X22.  Without root, [install_nftables] runs nothing but [which]
    probes: no package manager is started. *)
Theorem no_package_manager_without_root
    (World : Type) (run : list string -> World -> run_result * World)
    (os_release : option (list string)) (s : sys World) :
  exists evs,
    fst (snd (install_nftables run false os_release s)) = (fst s ++ evs)%list
    /\ forallb is_probe evs = true.
Proof.
  unfold install_nftables, check_nftables_installed.
  pose proof (run_logged_trace run ["which"; "nft"] s) as Ht.
  destruct (run_logged run ["which"; "nft"] s) as [r s1]. cbn [snd] in Ht.
  destruct (succeeded r).
  { exists [EvRun ["which"; "nft"]]. cbn [snd]. now rewrite Ht. }
  assert (Hd : exists evs,
             fst (snd (detect_linux_distro run os_release s1))
             = (fst s1 ++ evs)%list /\ forallb is_probe evs = true).
  { unfold detect_linux_distro.
    destruct (match os_release with
              | Some lines => match distro_of_lines lines with
                              | Ok found => found
                              | Raise _ => None
                              end
              | None => None
              end).
    - exists []. cbn. now rewrite app_nil_r.
    - apply probe_only_asks. }
  destruct Hd as (evs & E & Hp).
  destruct (detect_linux_distro run os_release s1) as [d s2]. cbn [snd] in E.
  exists (EvRun ["which"; "nft"] :: evs).
  split; [|exact Hp].
  destruct d; cbn [negb snd]; now rewrite E, Ht, <- app_assoc.
Qed.

(** X23.  [install_nftables] answers True only when its last call was
    [which nft] and that call returned the code 0. *)
Theorem install_true_means_nft_found
    (World : Type) (run : list string -> World -> run_result * World)
    (is_root : bool) (os_release : option (list string)) (s s' : sys World) :
  install_nftables run is_root os_release s = (Returned true, s') ->
  exists tr w p,
    fst s' = (tr ++ [EvRun ["which"; "nft"]])%list
    /\ run ["which"; "nft"] w = (Completed p, snd s')
    /\ returncode p = 0%Z.
Proof.
  assert (Hcheck : forall (s0 s1 : sys World),
             check_nftables_installed run s0 = (true, s1) ->
             exists tr w p,
               fst s1 = (tr ++ [EvRun ["which"; "nft"]])%list
               /\ run ["which"; "nft"] w = (Completed p, snd s1)
               /\ returncode p = 0%Z).
  { intros s0 s1. unfold check_nftables_installed, run_logged.
    destruct (run ["which"; "nft"] (snd s0)) as [r w1] eqn:E.
    intros H. apply pair_equal_spec in H as [Hs Hs1]. subst s1. cbn [fst snd].
    destruct r as [p|]; [|discriminate Hs]. cbn [succeeded] in Hs.
    exists (fst s0), (snd s0), p. split; [reflexivity|].
    split; [exact E|]. now apply Z.eqb_eq. }
  unfold install_nftables.
  destruct (check_nftables_installed run s) as [[] s1] eqn:E1.
  { intros H. inversion H; subst s'. exact (Hcheck _ _ E1). }
  destruct (detect_linux_distro run os_release s1) as [[distro|] s2];
    [|discriminate].
  destruct (negb is_root); [discriminate|].
  destruct (install_commands distro) as [cmds|]; [|discriminate].
  destruct (run_install run cmds false s2) as [[[]|] s3]; try discriminate.
  destruct (check_nftables_installed run s3) as [[] s4] eqn:E4;
    [|discriminate].
  intros H. inversion H; subst s'. exact (Hcheck _ _ E4).
Qed.

Lemma install_true_means_nft_found_witness :
  exists tr w p,
    fst ([EvRun ["which"; "nft"]], true)
    = (tr ++ [EvRun ["which"; "nft"]])%list
    /\ table_missing_run ["which"; "nft"] w
       = (Completed p, snd ([EvRun ["which"; "nft"]], true))
    /\ returncode p = 0%Z.
Proof.
  exact (install_true_means_nft_found bool table_missing_run true None
           ([], true) ([EvRun ["which"; "nft"]], true) eq_refl).
Defined.

(** X24.  On the rhel family, once [yum install] has completed, whatever
    its return code, [dnf install] is run as well. *)
Theorem rhel_runs_dnf_after_yum
    (World : Type) (run : list string -> World -> run_result * World)
    (s : sys World) (p : completed_process) (w1 : World) :
  run ["yum"; "install"; "-y"; "nftables"] (snd s) = (Completed p, w1) ->
  exists cmds,
    install_commands "rhel" = Some cmds
    /\ fst (snd (run_install run cmds false s))
       = (fst s ++ [EvRun ["yum"; "install"; "-y"; "nftables"];
                    EvRun ["dnf"; "install"; "-y"; "nftables"]])%list.
Proof.
  intros Hyum. eexists. split; [reflexivity|].
  cbn [run_install]. unfold run_logged at 1. rewrite Hyum.
  assert (Hdnf : forall flag,
             fst (snd (run_install run [["dnf"; "install"; "-y"; "nftables"]]
                         flag
                         ((fst s ++ [EvRun ["yum"; "install"; "-y"; "nftables"]])%list,
                          w1)))
             = (fst s ++ [EvRun ["yum"; "install"; "-y"; "nftables"];
                          EvRun ["dnf"; "install"; "-y"; "nftables"]])%list).
  { intros flag. cbn [run_install]. unfold run_logged. cbn [fst snd].
    destruct (run ["dnf"; "install"; "-y"; "nftables"] w1) as [[p2|] w2];
      [destruct (returncode p2 =? 0)%Z|]; cbn [fst snd hd];
      rewrite <- app_assoc; reflexivity. }
  destruct (returncode p =? 0)%Z; [apply Hdnf|].
  cbn [hd]. change (String.eqb "yum" "apt-get" || String.eqb "yum" "yum")
    with true. cbv iota. apply Hdnf.
Qed.

Lemma rhel_runs_dnf_after_yum_witness :
  exists cmds,
    install_commands "rhel" = Some cmds
    /\ fst (snd (run_install table_missing_run cmds false ([], true)))
       = ([] ++ [EvRun ["yum"; "install"; "-y"; "nftables"];
                 EvRun ["dnf"; "install"; "-y"; "nftables"]])%list.
Proof.
  exact (rhel_runs_dnf_after_yum bool table_missing_run ([], true)
           {| returncode := 0; stdout := ""; stderr := "" |} true eq_refl).
Defined.

End InstallFacts.
